(* ===== verification/_CoqProject ===== *)
-Q . S2P
Prelude.v
Js.v
ReactChildren.v
FlexContainer.v
Remotion.v
Layout.v
ScaledPictureGraphs.v
ChoosingTheRightScale.v
Root.v
Render.v
Motion.v
Storyboard.v
