(* ===== verification/Prelude.v ===== *)
(** * A verification development of the remotion picture-graph lessons

    ** The program

    The repository renders two short animated math lessons with the
    Remotion video framework: React components that Remotion evaluates
    once per video frame.  Four source files under [src/src]:

    - [components/FlexContainer.tsx]: the layout helper.  It flattens its
      [children] with [React.Children.toArray], wraps the i-th child in a
      centred cell [<div style={{ flex: ratios[i] || 1 }}>], and puts the
      cells in a full-size flex box whose class selects the main axis.
    - [remotion/MyComp/ScaledPictureGraphs.tsx] and
      [remotion/MyComp/ChoosingTheRightScale.tsx]: the two scenes.  Each
      reads the absolute frame and [fps], computes a table of stage start
      frames, and returns a tree of nested [<Sequence from>] windows,
      [<AbsoluteFill>] layers and [FlexContainer]s whose opacities are
      spring curves of [frame - start - delay].
    - [remotion/Root.tsx]: [RemotionRoot], the registered compositions
      (id, duration, fps, size); the scenes get their [fps] from it.

    The scenes call [FlexContainer] (composition of components), the
    Remotion runtime ([spring], [<Sequence>], [<AbsoluteFill>]) and React's
    [toArray]; Root passes the frame rate the scenes compute with.

    ** Files, in dependency order

    - [Prelude.v] (this file): the scope [remotion_scope] (notation
      [≡r] of [Layout.v]), the hint databases [remotion] and
      [remotion_rw], the tactic [qify], and the generic lemmas on lists
      ([mapi], the index-passing map of [Array.prototype.map]; [mapM];
      [list_find_first]; [Forall] over [concat] of [mapi] and [zip_with])
      and on [Qfloor].
    - [Js.v]: JavaScript semantics: [number] (finite values as exact
      rationals, [NaN], infinities), [truthy], [js_or] ([a || b]),
      [js_index] ([arr[i]], [undefined] out of range), [round_Q] and
      [Math_round] ([Math.round]), [to_length] ([Array.from({ length })]),
      [string_of_Z] (JSX text of an integer).
    - [ReactChildren.v]: [node] ([React.ReactNode]), [toArray], and
      [node_map] (toArray then map, in one structural pass) with the
      induction principle [node_ind'].
    - [FlexContainer.v]: the component ([FlexProps], [cell], [container],
      [resolve_flex], [FlexContainer]); the specification's contract
      ([spec_weight], [spec_layout]); the browser's reading of the cells
      ([css_flex], [distribute]).
    - [Remotion.v]: the runtime.  [SpringModel] is the interface the scenes
      need from [spring] (a class: 0 at frames [<= 0], values in [[0, 1]],
      positive after one frame at a positive rate); [linear_spring] is one
      model of it, used only to instantiate theorems on concrete frames.
      [el] is the element vocabulary of the scenes, with the induction
      principle [el_ind'] (hypotheses on every child, and on every element
      [toArray] finds in a [FlexContainer]'s children); [collect] renders
      an element at an absolute frame into [leaf]s in paint order (a
      [<Sequence from>] starts at [cumulatedFrom + from] and renders
      nothing before; opacity multiplies down the tree; a fill covers its
      containing block; a [Flex] node is rendered through the container
      [FlexContainer] returns, cell [i] holding the [i]-th flattened
      child); [visible] keeps the leaves that are shown and not covered by
      a later opaque fill.  The tactics [eval_leaves], [walk_visible],
      [find_cover], [find_visible] and [no_cover] evaluate a scene at a
      symbolic frame and decide visibility leaf by leaf.
    - [Layout.v]: the geometry.  [layout] lays the same leaves out in
      rectangles ([rect], compared with the setoid [rect_eq]): flex cells
      share the main axis by [distribute] less [gap-N]; [w-full h-full]
      boxes fill their parent less [p-N]; absolute boxes, fills and
      sequences fill their containing block; a box with a CSS
      [transform] paints its content through it ([scale_about] its
      centre, [translate_y]) and contains its absolute descendants.
      [layout_kinds]: it lists exactly the leaves [collect] paints, in the
      same order.  [eval_layout_with] lays a scene out on a screen of
      symbolic size, keeping a scene's [getSpringValue] folded.
      [opaque_class] ([Remotion.v]) decides which class lists paint an
      opaque background: a solid [bg-] colour or a gradient between
      solid colours, not [bg-transparent], [bg-white/50],
      [bg-opacity-50] or a non-colour [bg-] utility.
    - [ScaledPictureGraphs.v] (Module [SPG]), [ChoosingTheRightScale.v]
      (Module [CTRS]): each scene as a function of [fps] and the frame,
      one definition per stage's subtree ([title_cell], [scale_stage],
      [three_stars_stage], ..., [guidelines_stage], [example_stage],
      [prompt_stage], [solution_stage]) composed as the JSX nests them,
      with [timings], [getSpringValue], [StarSymbol], and for the second
      scene [PictureGraphExample], [ScaleGuideline] and the guideline
      data.  The Section variables [fps] and [frame] are the values the
      component reads from [useVideoConfig()] and [useCurrentFrame()].
    - [Root.v]: [RemotionRoot] over the [Constants] of [types/constants]
      (not in the sources, hence a parameter); a composition's
      [component] is a scene of this development or an external one, and
      [render_frame] renders frame [f] of it with the composition's
      [fps], for [0 <= f < durationInFrames]; [validate], [register] and
      [register_all] the registration mounting the root performs;
      [valid_id] is the id check of Remotion ([/^([a-zA-Z0-9-\u4E00-\u9FFF])+$/]),
      on the UTF-8 bytes of the id ([id_chars], [cjk_char]).
    - [Render.v]: the frame loop Remotion runs over a composition
      ([render_from], defined with Equations by well-founded recursion
      on the frames left; [render_video] starts it at frame 0).  It is
      the library's loop, not the repository's code, and serves
      [Storyboard.v].
    - [Motion.v]: the boxes the springs move ([translateY], [scale]), laid
      out on a screen of any size.
    - [Storyboard.v]: the abstract specification of each lesson, a
      [storyboard] (its length and the window of frames of each text,
      [SPG.script_seconds] scaled to frames, [CTRS.script_30]), and what
      it is for a rendered
      video to [follow] it.

    ** What is proved

    - FlexContainer (C1, C2, C5, C6): the weight of each cell on every
      branch of [||] (present and truthy, falsy, missing); order and
      number of cells; refinement of the specification's layout when
      ratios are positive; the divergence on negative ratios (passed
      through, then rejected by CSS).
    - Layout (C7): with positive ratios summing to at least 1, the cells
      share the main axis less the [gap-N] gaps of the [className] in
      proportion to the ratios, and the cells and the gaps fill it.
    - Remotion (C22): the outer div's class list, as the browser splits
      the template literal ([words]), is [flex w-full h-full], then
      [flex-row] for [direction="row"] and [flex-col] otherwise, then the
      [className] prop's words.  For every tree, opacities stay in
      [[0, 1]] when the styles do ([collect_opacity_range], by
      [el_ind']); the geometry and the paint order list the same leaves
      ([layout_kinds]).
    - ScaledPictureGraphs (C3, C4, C13, C15, C18, C24): the nested
      offsets telescope (each element mounts at its stage's timing, for
      every frame rate); nothing pops in (opacity 0 up to the mount
      frame); at every frame rate each text is seen exactly in its window
      of seconds ("= 5 students" for two seconds, until the white fill
      of the three-star stage covers it), but no star of the three-star
      stage ever is (a bug: delays of [starIndex * 200] frames); on a
      screen of any size the "= 5 students" text is centred over the
      whole stage-3 row, not in its right cell (a bug: a [<Sequence>] is
      absolutely positioned and flex cells are not); from frame 390 to
      the end the prompt's opaque fill hides everything but the prompt.
    - ChoosingTheRightScale (C8, C10-C12, C14, C16, C17): the stage
      frames at 30 fps, robust to the rounding error of doubles; strictly
      increasing starts for any rate of at least 1 fps; the stage
      mounts; nothing pops in; each picture-graph row shows
      [value / scale] stars; at 30 fps the exact frame windows in which
      each guideline heading, the prompt and the solution are seen
      (columns in order, the solution replacing the prompt); the [p-6]
      padding of the guidelines' container has no effect.
    - Root (C9, C19): the scenes fit their hard-coded 30-fps durations
      exactly when [VIDEO_FPS <= 36] (resp. [<= 35]); mounting the root
      registers its four compositions without error exactly when the
      outside constants are valid ([COMP_NAME] a valid id, CJK letters
      included, distinct from the three literal ids, positive duration,
      rate and size), and throws at the first bad one otherwise.
    - Motion (C20, C21): at any frame and on any screen, each sliding
      heading or card is its resting area moved down by exactly
      [(1 - s) * d] px and each growing card is scaled about its area's
      centre by exactly [0.8 + 0.2 * s], where [s] is the stage's
      spring value.
    - Storyboard (C23): the components together.  When the root
      registers without error and [VIDEO_FPS] is 30, the video the frame
      loop renders of each lesson follows its storyboard (a refinement
      built from the registry, the loop and the scenes' windows).

    ** Choices and bounds

    There is no fuel: [collect], [layout] and [styles] are structural on
    the element tree (through [node_map] for a [FlexContainer]'s
    children), and the only loops of the code ([.map], [Array.from]) are
    list recursions.  Remotion's frame loop ([Render.render_from]) is
    defined by well-founded recursion on [durationInFrames - f].
    Concrete theorems are stated at 30 fps, the rate
    the code's comments and hard-coded durations assume; the general ones
    quantify over the frame rate and, for the geometry, over the screen
    size.  Doubles are exact rationals; [round_Q_stable] and
    [ChoosingTheRightScale_frames_30] show the rounding the code does is
    insensitive to the error a double can carry.  Theorems over frames
    quantify over every frame of the composition (a symbolic frame, cut
    into the intervals between stage starts), not over samples.

    ** Not modelled

    Font loading ([loadFont], asset I/O) and [fontFamily]; the [Main] and
    [NextLogo] compositions and their [defaultProps] (their sources are
    not in the repository); text metrics, margins, offsets such as
    [bottom-16] and the size of content-sized boxes (their content is
    laid out in, and centred in, the area they lie in); the effect of
    transforms on covering ([visible] compares boxes by position in the
    tree, and no fill of the scenes is transformed); CSS animations ([animate-pulse],
    [animationDelay]: driven by wall-clock time, not by the frame);
    React's reconciliation by key (only the keys are); the exact curve
    of Remotion's spring (only its laws); the [RangeError] [Array.from]
    throws for a length above [2^32 - 1] (the scenes' lengths are
    literals below 6, so the path is unreachable).

    ** Plan for the next stages

    ChoosingTheRightScale at rates other than 30 (its stage frames are
    rounded seconds, so each window moves by the rounding; C9 shows the
    last stages are cut above 35 fps).
*)

From stdpp Require Import base list.
From Stdlib Require Import ZArith QArith Qround Lqa Lia.

Declare Scope remotion_scope.
Delimit Scope remotion_scope with rm.

(** The hint database of the development: the rounding, lookup and spring
    lemmas that close the routine side goals. *)
Create HintDb remotion discriminated.
Create Rewrite HintDb remotion_rw.

(** ** Index-passing map *)

(** [mapi_from f i l] applies [f] to each element of [l] together with its
    index, counting from [i]. *)
Fixpoint mapi_from {A B} (f : nat -> A -> B) (i : nat) (l : list A) : list B :=
  match l with
  | [] => []
  | x :: l' => f i x :: mapi_from f (S i) l'
  end.

Definition mapi {A B} (f : nat -> A -> B) (l : list A) : list B := mapi_from f 0 l.

Section Mapi.
Context {A B : Type} (f : nat -> A -> B).

Lemma length_mapi_from i l : length (mapi_from f i l) = length l.
Proof. revert i; induction l; intros; simpl; auto. Qed.

Lemma lookup_mapi_from i l k : mapi_from f i l !! k = f (i + k)%nat <$> l !! k.
Proof.
  revert i k; induction l as [|x l IH]; intros i [|k]; simpl; auto.
  - by rewrite Nat.add_0_r.
  - rewrite IH. by rewrite Nat.add_succ_r.
Qed.

Lemma length_mapi l : length (mapi f l) = length l.
Proof. apply length_mapi_from. Qed.

Lemma lookup_mapi l k : mapi f l !! k = f k <$> l !! k.
Proof. apply lookup_mapi_from. Qed.

Lemma map_mapi_from {C} (g : B -> C) i l :
  map g (mapi_from f i l) = mapi_from (fun j x => g (f j x)) i l.
Proof. revert i; induction l; intros; simpl; f_equal; auto. Qed.
End Mapi.

#[export] Hint Rewrite @length_mapi @length_mapi_from : remotion_rw.

(** Two index-passing maps agree when their functions agree on the list. *)
Lemma mapi_ext {A B} (f g : nat -> A -> B) (l : list A) :
  (forall i x, l !! i = Some x -> f i x = g i x) -> mapi f l = mapi g l.
Proof.
  intros H. apply list_eq; intros k. rewrite !lookup_mapi.
  destruct (l !! k) eqn:E; simpl; [f_equal; auto | done].
Qed.

(** ** Rationals and their floor *)

Local Open Scope Q_scope.

(** [Qfloor x] is the unique integer [n] with [n <= x < n + 1]. *)
Lemma Qfloor_unique (x : Q) (n : Z) :
  inject_Z n <= x -> x < inject_Z n + 1 -> Qfloor x = n.
Proof.
  intros Hlo Hhi.
  assert (Hl : (n <= Qfloor x)%Z).
  { rewrite <- (Qfloor_Z n). now apply Qfloor_resp_le. }
  assert (Hf := Qfloor_le x).
  assert (Hh : (Qfloor x < n + 1)%Z).
  { rewrite Zlt_Qlt, inject_Z_plus. change (inject_Z 1) with 1. lra. }
  lia.
Qed.

(** Comparisons of injected integers, in the direction [lia] can use. *)
Lemma inject_Z_le (a b : Z) : inject_Z a <= inject_Z b <-> (a <= b)%Z.
Proof. now rewrite Zle_Qle. Qed.

Lemma inject_Z_lt (a b : Z) : inject_Z a < inject_Z b <-> (a < b)%Z.
Proof. now rewrite Zlt_Qlt. Qed.

Close Scope Q_scope.

(** [qify] turns comparisons of injected integers into [Z] comparisons. *)
Ltac qify :=
  repeat match goal with
  | H : (inject_Z _ <= inject_Z _)%Q |- _ => apply inject_Z_le in H
  | H : (inject_Z _ < inject_Z _)%Q |- _ => apply inject_Z_lt in H
  | |- (inject_Z _ <= inject_Z _)%Q => apply inject_Z_le
  | |- (inject_Z _ < inject_Z _)%Q => apply inject_Z_lt
  end.

(** [mapM] in the option monad succeeds when the function succeeds on
    every element. *)
Lemma mapM_Some_map {A B} (f : A -> option B) (g : A -> B) (l : list A) :
  (forall x, In x l -> f x = Some (g x)) -> mapM f l = Some (map g l).
Proof.
  induction l as [|x l IH]; intros H; simpl; [done|].
  rewrite H by (left; done). simpl. rewrite IH by (intros; apply H; by right). done.
Qed.

Lemma lookup_map_list {A B} (f : A -> B) (l : list A) (i : nat) :
  map f l !! i = f <$> l !! i.
Proof. revert i; induction l; intros [|i]; simpl; auto. Qed.

Lemma mapM_map {A B C} (f : B -> option C) (g : A -> B) (l : list A) :
  mapM (fun x => f (g x)) l = mapM f (map g l).
Proof. induction l as [|x l IH]; simpl; [done|]. by rewrite IH. Qed.

#[export] Hint Rewrite @lookup_map_list : remotion_rw.

Lemma existsb_Exists_true {A} (f : A -> bool) (l : list A) :
  Exists (fun x => f x = true) l -> existsb f l = true.
Proof. induction 1 as [x l Hx|x l _ IH]; simpl; [by rewrite Hx | by rewrite IH, orb_true_r]. Qed.

Lemma mapi_from_app {A B} (f : nat -> A -> B) (i : nat) (l1 l2 : list A) :
  mapi_from f i (l1 ++ l2) = mapi_from f i l1 ++ mapi_from f (i + length l1) l2.
Proof.
  revert i; induction l1 as [|x l1 IH]; intros i; simpl; [by rewrite Nat.add_0_r|].
  rewrite IH. by rewrite Nat.add_succ_r.
Qed.

Lemma mapi_from_map {A B C} (f : nat -> B -> C) (g : A -> B) (i : nat) (l : list A) :
  mapi_from f i (map g l) = mapi_from (fun j x => f j (g x)) i l.
Proof. revert i; induction l; intros; simpl; f_equal; auto. Qed.

(** Concatenating per-index blocks that each contribute one [k] under a
    projection [p] gives [length l] copies of [k]. *)
Lemma map_concat_mapi_from_single {A B C} (p : B -> C) (h : nat -> A -> list B) (k : C)
  (i : nat) (l : list A) :
  (forall j x, map p (h j x) = [k]) ->
  map p (List.concat (mapi_from h i l)) = replicate (length l) k.
Proof.
  intros Hh. revert i; induction l as [|x l IH]; intros i; simpl; [done|].
  rewrite map_app, Hh, IH. done.
Qed.

(** The first element satisfying a boolean test. *)
Fixpoint list_find_first {A} (p : A -> bool) (l : list A) : option A :=
  match l with
  | [] => None
  | x :: l' => if p x then Some x else list_find_first p l'
  end.

(** A property of every element of a flattened [mapi], from the
    property of each block, and likewise for [zip_with]. *)
Lemma Forall_concat_mapi_from {A B} (P : B -> Prop) (f : nat -> A -> list B) (i : nat) (l : list A) :
  (forall j x, x ∈ l -> Forall P (f j x)) -> Forall P (List.concat (mapi_from f i l)).
Proof.
  revert i. induction l as [|x l IH]; intros i Hf; simpl; [constructor|].
  apply Forall_app. split; [apply Hf; left|apply IH; intros j y Hy; apply Hf; by right].
Qed.

Lemma Forall_concat_zip_with {A B C} (P : C -> Prop) (g : A -> B -> list C) (xs : list A) (ys : list B) :
  (forall x y, x ∈ xs -> y ∈ ys -> Forall P (g x y)) -> Forall P (List.concat (zip_with g xs ys)).
Proof.
  revert ys. induction xs as [|x xs IH]; intros [|y ys] Hg; simpl; try constructor.
  apply Forall_app. split; [apply Hg; left|apply IH; intros a b Ha Hb; apply Hg; by right].
Qed.

Lemma Forall_concat_map_elem {A B} (P : B -> Prop) (f : A -> list B) (l : list A) (x : A) :
  Forall P (List.concat (map f l)) -> x ∈ l -> Forall P (f x).
Proof. rewrite List.Forall_concat, List.Forall_map, Forall_forall. auto. Qed.

Lemma Qmult_unit_range (a b : Q) : (0 <= a <= 1 -> 0 <= b <= 1 -> 0 <= a * b <= 1)%Q.
Proof. intros. nra. Qed.

(** A [mapi] whose blocks do not depend on the index is a [map]. *)
Lemma mapi_from_const {A B} (F : nat -> A -> B) (G : A -> B) (i : nat) (l : list A) :
  (forall j x, x ∈ l -> F j x = G x) -> mapi_from F i l = map G l.
Proof.
  revert i. induction l as [|x l IH]; intros i HF; simpl; [done|].
  rewrite (HF i x) by (left); rewrite IH; [done|]. intros j y Hy. apply HF. by right.
Qed.

(** The blocks of a [zip_with] over a mapped list, read through [g]. *)
Lemma map_concat_zip_with {A B C D E} (g : C -> D) (F : A -> B -> list C) (h : E -> B)
  (K : E -> list D) (xs : list A) (ys : list E) :
  length xs = length ys -> (forall x y, y ∈ ys -> map g (F x (h y)) = K y) ->
  map g (List.concat (zip_with F xs (map h ys))) = List.concat (map K ys).
Proof.
  revert ys. induction xs as [|x xs IH]; intros [|y ys] Hlen HK; simpl in *; try done.
  rewrite map_app, (HK x y) by left. f_equal. apply IH; [lia|]. intros a b Hb. apply HK. by right.
Qed.

Lemma map_concat {A B} (g : A -> B) (ls : list (list A)) :
  map g (List.concat ls) = List.concat (map (map g) ls).
Proof. induction ls as [|l ls IH]; simpl; [done|]. by rewrite map_app, IH. Qed.

(** The indices [mapi] passes are [i, i + 1, ...]. *)
Lemma mapi_from_index {A} (i : nat) (l : list A) : mapi_from (fun j _ => j) i l = seq i (length l).
Proof. revert i. induction l as [|x l IH]; intros i; simpl; [done|]. by rewrite IH. Qed.
