(* ===== verification/Js.v ===== *)
(** * JavaScript semantics used by the components

    The components are TypeScript; the few JavaScript operations whose
    exact behaviour they rely on are modelled here once:
    - [number]: an IEEE double is a finite value, [NaN] or an infinity.
      Finite values are kept as exact rationals [Q]: the code only passes
      them through, compares them, or rounds products like [2.319 * 30]
      whose distance to a rounding boundary is proved below to dwarf the
      error of a double ([round_Q_stable]).
    - truthiness and [a || b] ([FlexContainer.tsx] line 19);
    - [arr[i]], which is [undefined] out of range;
    - [Math.round] ([ChoosingTheRightScale.tsx] lines 120-126, [Root.tsx]
      line 49): [floor (x + 1/2)], so halves round up;
    - the length argument of [Array.from({ length })]
      ([ChoosingTheRightScale.tsx] line 48): ToLength, truncated and
      clamped to [[0, 2^53 - 1]];
    - the text JSX renders for an integer ([ChoosingTheRightScale.tsx]
      lines 46 and 56). *)

From Stdlib Require Import ZArith QArith Qround Lqa Lia String DecimalString DecimalPos DecimalZ.
From stdpp Require Import base list decidable.
From S2P Require Import Prelude.

Local Open Scope Q_scope.

(** ** Numbers *)

Inductive number :=
| Num (q : Q)
| NaN
| Infinity
| NegInfinity.

(** A value of type [number | undefined]. *)
Abbreviation js_value := (option number).

(** [Boolean(v)]: [0], [-0], [NaN] and [undefined] are falsy. *)
Definition truthy (v : js_value) : bool :=
  match v with
  | Some (Num q) => negb (Qeq_bool q 0)
  | Some NaN | None => false
  | Some Infinity | Some NegInfinity => true
  end.

(** [a || b]: the left operand when it is truthy, the right one otherwise. *)
Definition js_or (a : js_value) (b : number) : number :=
  match a with
  | Some n => if truthy (Some n) then n else b
  | None => b
  end.

Notation "a '||' b" := (js_or a b) (at level 50, left associativity) : remotion_scope.

(** [arr[i]] for a non-negative integer index. *)
Definition js_index (arr : list number) (i : nat) : js_value := arr !! i.

(** ** [Math.round] *)

Definition round_Q (x : Q) : Z := Qfloor (x + (1 # 2)).

Definition Math_round (v : number) : number :=
  match v with
  | Num q => Num (inject_Z (round_Q q))
  | other => other
  end.

(** ** [Array.from({ length })]: ToLength truncates and clamps to
    [[0, 2^53 - 1]] *)

Definition to_length (v : number) : Z :=
  match v with
  | Num q => if Qle_bool q 0 then 0%Z else Z.min (Qfloor q) (2 ^ 53 - 1)
  | NaN | NegInfinity => 0%Z
  | Infinity => (2 ^ 53 - 1)%Z
  end.

Definition array_from_length (v : number) : list unit := replicate (Z.to_nat (to_length v)) tt.

(** [String(n)] for an integral number, as JSX renders [{n}]. *)
Definition string_of_Z (z : Z) : string := NilZero.string_of_int (Z.to_int z).

(** ** Lemmas *)

Lemma js_or_truthy (a : number) (b : number) :
  truthy (Some a) = true -> js_or (Some a) b = a.
Proof. intros H. unfold js_or. now rewrite H. Qed.

Lemma js_or_falsy (a : js_value) (b : number) :
  truthy a = false -> js_or a b = b.
Proof. destruct a as [n|]; unfold js_or; [intros H; now rewrite H | done]. Qed.

(** A finite number is truthy exactly when it is not zero. *)
Lemma truthy_Num (q : Q) : truthy (Some (Num q)) = true <-> ~ q == 0.
Proof.
  simpl. rewrite negb_true_iff. split.
  - intros H E. apply Qeq_bool_iff in E. congruence.
  - intros H. destruct (Qeq_bool q 0) eqn:E; [|done].
    apply Qeq_bool_iff in E. contradiction.
Qed.

#[export] Hint Resolve js_or_truthy js_or_falsy : remotion.

(** [round_Q x] is the integer [n] with [n - 1/2 <= x < n + 1/2]. *)
Lemma round_Q_spec (x : Q) (n : Z) :
  round_Q x = n <-> inject_Z n - (1 # 2) <= x /\ x < inject_Z n + (1 # 2).
Proof.
  unfold round_Q. split.
  - intros <-. pose proof (Qfloor_le (x + (1 # 2))).
    pose proof (Qlt_floor (x + (1 # 2))).
    rewrite inject_Z_plus in H0. change (inject_Z 1) with 1 in H0. lra.
  - intros [Hlo Hhi]. apply Qfloor_unique; lra.
Qed.

Lemma round_Q_inject_Z (z : Z) : round_Q (inject_Z z) = z.
Proof. apply round_Q_spec. lra. Qed.

(** Rounding is monotone. *)
Lemma round_Q_mono (x y : Q) : x <= y -> (round_Q x <= round_Q y)%Z.
Proof. intros H. apply Qfloor_resp_le. lra. Qed.

(** Rounding is insensitive to an error [d] smaller than the distance [e]
    of the exact value to the nearest rounding boundary: the double that
    JavaScript computes for [2.319 * 30] rounds like the exact product. *)
Lemma round_Q_stable (x d e : Q) :
  inject_Z (round_Q x) - (1 # 2) + e <= x ->
  x + e < inject_Z (round_Q x) + (1 # 2) ->
  - e < d -> d < e ->
  round_Q (x + d) = round_Q x.
Proof. intros H1 H2 H3 H4. apply round_Q_spec. lra. Qed.

(** Adding 1 before rounding adds 1 after. *)
Lemma round_Q_plus_1 (x : Q) : round_Q (x + 1) = (round_Q x + 1)%Z.
Proof.
  apply round_Q_spec. pose proof (proj1 (round_Q_spec x (round_Q x)) eq_refl).
  rewrite inject_Z_plus. change (inject_Z 1) with 1. lra.
Qed.

(** Values at least 1 apart round to different integers. *)
Lemma round_Q_lt_gap (x y : Q) : x + 1 <= y -> (round_Q x < round_Q y)%Z.
Proof.
  intros H. apply round_Q_mono in H. rewrite round_Q_plus_1 in H. lia.
Qed.

#[export] Hint Rewrite round_Q_inject_Z : remotion_rw.

Lemma length_array_from_length (v : number) : length (array_from_length v) = Z.to_nat (to_length v).
Proof. apply length_replicate. Qed.

(** An integral length in range is taken as it is. *)
Lemma to_length_Z (z : Z) : (0 <= z <= 2 ^ 53 - 1)%Z -> to_length (Num (inject_Z z)) = z.
Proof.
  intros Hz. unfold to_length. rewrite Qfloor_Z.
  destruct (Qle_bool (inject_Z z) 0) eqn:E; [|lia].
  apply Qle_bool_iff in E. change (inject_Z z <= inject_Z 0) in E. rewrite <- Zle_Qle in E. lia.
Qed.

(** [Array.from({ length: n })] has [max n 0] elements for an integer
    [n] up to [2^53 - 1]. *)
Lemma to_length_Z_nat (z : Z) : (z <= 2 ^ 53 - 1)%Z -> Z.to_nat (to_length (Num (inject_Z z))) = Z.to_nat z.
Proof.
  intros Hmax. destruct (Z.le_gt_cases 0 z) as [Hz|Hz]; [by rewrite to_length_Z|].
  unfold to_length. assert (E : Qle_bool (inject_Z z) 0 = true).
  { apply Qle_bool_iff. change (inject_Z z <= inject_Z 0). qify. lia. }
  rewrite E. lia.
Qed.

Close Scope Q_scope.

