(* ===== verification/ReactChildren.v ===== *)
(** * React children and [React.Children.toArray]

    [FlexContainer.tsx] line 10 normalises its [children] prop with
    [React.Children.toArray].  A [React.ReactNode] is [null], [undefined],
    a boolean, a string, a number, an element, or an (arbitrarily nested)
    array of nodes; [toArray] (React's [mapIntoArray] with the identity
    callback) walks it in order, drops [null], [undefined] and booleans,
    keeps strings, numbers and elements, and descends into arrays.  A
    fragment is an element: it is kept whole, not flattened.  The keys
    React assigns to the returned elements are not modelled: the
    container wraps each child in a cell keyed by its index.

    [node_map f] is [map f] after [toArray], computed in one structural
    pass so that a renderer can recurse into the elements of a node
    ([node_map_toArray]); [node_ind'] is induction over nested arrays. *)

From Stdlib Require Import String.
From stdpp Require Import base list.
From S2P Require Import Prelude Js.

(** ** Data *)

#[local] Set Warnings "-register-all".
Inductive node (E : Type) :=
| NNull
| NUndefined
| NBool (b : bool)
| NString (s : string)
| NNumber (n : number)
| NElement (e : E)
| NArray (l : list (node E)).

Arguments NNull {E}.
Arguments NUndefined {E}.
Arguments NBool {E} b.
Arguments NString {E} s.
Arguments NNumber {E} n.
Arguments NElement {E} e.
Arguments NArray {E} l.

(** What [toArray] returns: the renderable leaves. *)
Inductive child (E : Type) :=
| CString (s : string)
| CNumber (n : number)
| CElement (e : E).

Arguments CString {E} s.
Arguments CNumber {E} n.
Arguments CElement {E} e.

Section ToArray.
Context {E : Type}.

(** [React.Children.toArray children]. *)
Fixpoint toArray (n : node E) : list (child E) :=
  match n with
  | NNull | NUndefined | NBool _ => []
  | NString s => [CString s]
  | NNumber x => [CNumber x]
  | NElement e => [CElement e]
  | NArray l =>
      (fix go (l : list (node E)) : list (child E) :=
         match l with
         | [] => []
         | x :: l' => toArray x ++ go l'
         end) l
  end.

(** [toArray] followed by [map f], in one structural pass over the node:
    the form a renderer that recurses into the elements needs. *)
Fixpoint node_map {A} (f : child E -> A) (n : node E) : list A :=
  match n with
  | NNull | NUndefined | NBool _ => []
  | NString s => [f (CString s)]
  | NNumber x => [f (CNumber x)]
  | NElement e => [f (CElement e)]
  | NArray l => List.concat (map (node_map f) l)
  end.

(** A leaf as a node again. *)
Definition node_of_child (c : child E) : node E :=
  match c with
  | CString s => NString s
  | CNumber x => NNumber x
  | CElement e => NElement e
  end.

(** ** Lemmas *)

Lemma toArray_NArray (l : list (node E)) :
  toArray (NArray l) = List.concat (map toArray l).
Proof. induction l as [|x l IH]; simpl; [done|]. by rewrite <- IH. Qed.

Lemma toArray_node_of_child (c : child E) : toArray (node_of_child c) = [c].
Proof. by destruct c. Qed.

(** Arrays nest transparently: flattening an array of arrays is
    flattening their concatenation. *)
Lemma toArray_app (l1 l2 : list (node E)) :
  toArray (NArray (l1 ++ l2)) = toArray (NArray l1) ++ toArray (NArray l2).
Proof. rewrite !toArray_NArray, map_app. apply List.concat_app. Qed.

Lemma toArray_nested (l1 l2 : list (node E)) :
  toArray (NArray [NArray l1; NArray l2]) = toArray (NArray (l1 ++ l2)).
Proof. rewrite toArray_app. simpl. by rewrite app_nil_r. Qed.

(** Induction over a node, with the hypothesis on every element of an
    array. *)
Lemma node_ind' (P : node E -> Prop) :
  P NNull -> P NUndefined -> (forall b, P (NBool b)) -> (forall s, P (NString s)) ->
  (forall x, P (NNumber x)) -> (forall e, P (NElement e)) ->
  (forall l, Forall P l -> P (NArray l)) ->
  forall n, P n.
Proof.
  intros Hnull Hundef Hbool Hstr Hnum Hel Harr. fix IH 1.
  intros [| | b | s | x | e | l]; [exact Hnull | exact Hundef | apply Hbool | apply Hstr
                                 | apply Hnum | apply Hel | apply Harr].
  induction l as [|x l IHl]; [constructor | constructor; [apply IH | exact IHl]].
Qed.

Lemma node_map_toArray {A} (f : child E -> A) (n : node E) : node_map f n = map f (toArray n).
Proof.
  induction n as [| | | | | |l IH] using node_ind'; try done.
  rewrite toArray_NArray. cbn [node_map]. rewrite List.concat_map, map_map.
  induction IH as [|x l Hx _ IHl]; simpl; [done|]. by rewrite Hx, IHl.
Qed.

End ToArray.

#[export] Hint Rewrite @toArray_NArray @toArray_node_of_child : remotion_rw.
