(* ===== verification/FlexContainer.v ===== *)
(** * The [FlexContainer] component

    Models [src/components/FlexContainer.tsx] (lines 4-28).  The component
    takes [children], an optional [direction] (["row"] or ["column"],
    default ["column"]), optional [ratios] (default [[]]) and an optional
    [className] (default [""]); it returns a [div] whose class is
    ["flex w-full h-full " ++ axis ++ " " ++ className] and whose children
    are, for each element of [React.Children.toArray(children)] at index
    [i], a [div] with key [i], style [{ flex: ratios[i] || 1 }] and class
    ["flex items-center justify-center"] holding that element.

    Contents:
    - the props and the rendered tree ([FlexProps], [cell], [container]);
    - [resolve_flex], the weight of the i-th cell, and [FlexContainer];
    - the functional behaviour: cell count and order, the weight on every
      branch of [||] (truthy ratio, falsy ratio, missing ratio), and that
      [direction] and [className] only change the outer class;
    - [spec_weight]/[spec_layout], the contract of the specification
      ("a supplied weight, or 1"), and the refinement theorem that the
      component implements it when every supplied ratio is positive;
    - the browser's reading of [style.flex] ([css_flex]) and the flex
      distribution of the main axis ([distribute]): weights summing to at
      least 1 share the whole axis in proportion ([distribute_fills]),
      smaller ones leave space ([distribute_underfull]); [Layout.v]
      applies them to a container's cells, less its gaps. *)

From Stdlib Require Import String QArith Qround Lqa Lia.
From stdpp Require Import base list decidable.
From S2P Require Import Prelude Js ReactChildren.

Local Open Scope string_scope.

(** ** Props and rendered tree *)

Inductive direction := row | column.

#[export] Instance direction_eq_dec : EqDecision direction.
Proof. solve_decision. Defined.

(** The props object; an absent optional prop is [None] ([undefined]). *)
Record FlexProps (E : Type) := {
  children : node E;
  direction_prop : option direction;
  ratios_prop : option (list number);
  className_prop : option string
}.

Arguments children {E} _.
Arguments direction_prop {E} _.
Arguments ratios_prop {E} _.
Arguments className_prop {E} _.

(** A wrapper [<div key={index} style={{ flex }} className=...>{child}</div>]. *)
Record cell (E : Type) := {
  cell_key : nat;
  cell_flex : number;
  cell_className : string;
  cell_child : child E
}.

Arguments cell_key {E} _.
Arguments cell_flex {E} _.
Arguments cell_className {E} _.
Arguments cell_child {E} _.

(** The outer [<div className=...>] and its cells. *)
Record container (E : Type) := {
  container_className : string;
  cells : list (cell E)
}.

Arguments container_className {E} _.
Arguments cells {E} _.

(** ** The component *)

Definition axis_class (d : direction) : string :=
  if decide (d = row) then "flex-row" else "flex-col".

(** [const flex = ratios[index] || 1]. *)
Definition resolve_flex (ratios : list number) (index : nat) : number :=
  js_or (js_index ratios index) (Num 1).

Definition cell_class : string := "flex items-center justify-center".

Definition FlexContainer {E} (p : FlexProps E) : container E :=
  let direction := default column (direction_prop p) in
  let ratios := default [] (ratios_prop p) in
  let className := default "" (className_prop p) in
  let childrenArray := toArray (children p) in
  {| container_className :=
       "flex w-full h-full " ++ axis_class direction ++ " " ++ className;
     cells :=
       mapi (fun index child =>
               {| cell_key := index;
                  cell_flex := resolve_flex ratios index;
                  cell_className := cell_class;
                  cell_child := child |}) childrenArray |}.

(** The layout the container hands to the browser: each child with its
    weight, in order. *)
Definition layout_of {E} (c : container E) : list (child E * number) :=
  map (fun x => (cell_child x, cell_flex x)) (cells c).

(** ** The specification's contract *)

(** "Every child receives exactly one weight: [ratios[i]] if present, else
    1; weights are never zero or negative when supplied (malformed input
    falls back to the default weight)". *)
Definition spec_weight (ratios : list number) (i : nat) : number :=
  match ratios !! i with
  | Some (Num q) => if Qle_bool q 0 then Num 1 else Num q
  | _ => Num 1
  end.

Definition spec_layout {E} (cs : list (child E)) (ratios : list number)
  : list (child E * number) :=
  mapi (fun i c => (c, spec_weight ratios i)) cs.

(** A well-formed ratio: a positive finite number. *)
Definition ratio_ok (n : number) : Prop :=
  match n with Num q => (0 < q)%Q | _ => False end.

(** ** The browser's reading of the cells *)

(** [style={{ flex: n }}]: React writes the number as it is; CSS reads a
    single non-negative number [g] as [flex: g 1 0%] and rejects a
    negative number, [NaN] or [Infinity], leaving the initial
    [flex: 0 1 auto] ([None]). *)
Definition css_flex (n : number) : option Q :=
  match n with
  | Num q => if Qle_bool 0 q then Some q else None
  | _ => None
  end.

Definition sumQ (gs : list Q) : Q := fold_right Qplus 0%Q gs.

(** CSS Flexbox 9.7 for items with basis 0 in a container of main size
    [L]: the free space is [L]; if the grow factors sum to less than 1 each
    item receives [L * g], otherwise [L * g / sum]. *)
Definition distribute (L : Q) (gs : list Q) : list Q :=
  let total := sumQ gs in
  if Qle_bool 1 total then map (fun g => L * g / total)%Q gs
  else map (fun g => L * g)%Q gs.

(** ** Functional behaviour *)

Section Behaviour.
Context {E : Type}.
Implicit Types (p : FlexProps E) (ratios : list number).

(** The cell at index [i] wraps the [i]-th flattened child, with key [i]
    and the resolved weight. *)
Lemma FlexContainer_lookup p i :
  cells (FlexContainer p) !! i =
    (fun c => {| cell_key := i;
                 cell_flex := resolve_flex (default [] (ratios_prop p)) i;
                 cell_className := cell_class;
                 cell_child := c |}) <$> toArray (children p) !! i.
Proof. simpl. by rewrite lookup_mapi. Qed.

(** The weights of the cells, by index, whatever their keys. *)
Lemma FlexContainer_flex_lookup p i :
  map cell_flex (cells (FlexContainer p)) !! i =
    (fun _ => resolve_flex (default [] (ratios_prop p)) i) <$> toArray (children p) !! i.
Proof. rewrite lookup_map_list. simpl. rewrite lookup_mapi. by destruct (_ !! i). Qed.

(** C5: the container has one cell per flattened child, in the order of
    [React.Children.toArray(children)]: no child is dropped, duplicated
    or reordered. *)
Theorem FlexContainer_children_order p :
  map cell_child (cells (FlexContainer p)) = toArray (children p).
Proof.
  simpl. unfold mapi. rewrite map_mapi_from.
  generalize 0%nat. induction (toArray (children p)); intros; simpl; f_equal; auto.
Qed.

Lemma resolve_flex_present ratios i r :
  ratios !! i = Some r -> resolve_flex ratios i = js_or (Some r) (Num 1).
Proof. intros H. unfold resolve_flex, js_index. by rewrite H. Qed.
(** Only the outer class depends on [direction] and [className]. *)
Lemma FlexContainer_cells_indep p d c :
  cells (FlexContainer {| children := children p; direction_prop := d;
                          ratios_prop := ratios_prop p; className_prop := c |})
  = cells (FlexContainer p).
Proof. reflexivity. Qed.
End Behaviour.

Section Weights.
Context {E : Type}.
Implicit Types (p : FlexProps E) (ratios : list number).

(** C1: the cell at index [i] holds the [i]-th child under key [i], and
    its flex is [ratios[i]] when that entry exists and is truthy, and 1
    when it is missing (index past the end, or no [ratios] prop) or
    falsy ([0] or [NaN]). *)
Theorem FlexContainer_cell_flex p i c :
  toArray (children p) !! i = Some c ->
  cells (FlexContainer p) !! i =
    Some {| cell_key := i;
            cell_flex := match default [] (ratios_prop p) !! i with
                         | Some r => if truthy (Some r) then r else Num 1
                         | None => Num 1
                         end;
            cell_className := cell_class;
            cell_child := c |}.
Proof.
  intros Hc. rewrite FlexContainer_lookup, Hc. simpl.
  unfold resolve_flex, js_index. by destruct (_ !! i).
Qed.

(** A well-formed ratio resolves to the weight the specification
    promises. *)
Lemma resolve_flex_spec_weight ratios i :
  (forall r, ratios !! i = Some r -> ratio_ok r) ->
  resolve_flex ratios i = spec_weight ratios i.
Proof.
  intros Hok. unfold resolve_flex, spec_weight, js_index.
  destruct (ratios !! i) as [r|] eqn:Hr; [|done].
  specialize (Hok r eq_refl). destruct r as [q| | |]; try contradiction.
  simpl in Hok. simpl.
  destruct (Qeq_bool q 0) eqn:E0.
  - apply Qeq_bool_iff in E0. lra.
  - destruct (Qle_bool q 0) eqn:E1; [apply Qle_bool_iff in E1; lra | done].
Qed.

(** C2: refinement.  When every supplied ratio is a positive number,
    the (child, weight) pairs the container renders are exactly the
    layout of the specification: the children in order, the [i]-th with
    weight [ratios[i]] if present and 1 otherwise. *)
Theorem FlexContainer_refines_spec p :
  Forall ratio_ok (default [] (ratios_prop p)) ->
  layout_of (FlexContainer p) = spec_layout (toArray (children p)) (default [] (ratios_prop p)).
Proof.
  intros Hok. unfold layout_of, spec_layout. simpl. unfold mapi.
  rewrite map_mapi_from. fold (mapi (fun j x => (x, resolve_flex (default [] (ratios_prop p)) j))
                                    (toArray (children p))).
  apply mapi_ext. intros j x _. f_equal. apply resolve_flex_spec_weight.
  intros r Hr. rewrite Forall_lookup in Hok. eauto.
Qed.

(** C6: a negative ratio is truthy, so [ratios[i] || 1] passes it
    through instead of falling back to 1 as the specification says, and
    the browser rejects the resulting [flex] declaration. *)
Theorem FlexContainer_negative_ratio ratios i q :
  ratios !! i = Some (Num q) -> (q < 0)%Q ->
  resolve_flex ratios i = Num q /\ spec_weight ratios i = Num 1 /\
  css_flex (resolve_flex ratios i) = None.
Proof.
  intros Hr Hq. unfold resolve_flex, spec_weight, js_index. rewrite Hr.
  assert (Ht : truthy (Some (Num q)) = true) by (apply truthy_Num; lra).
  unfold js_or. rewrite Ht. simpl.
  assert (E1 : Qle_bool q 0 = true) by (apply Qle_bool_iff; lra). rewrite E1.
  destruct (Qle_bool 0 q) eqn:E2; [apply Qle_bool_iff in E2; lra|done].
Qed.
End Weights.

(** ** The main-axis distribution *)

Section Distribution.
Open Scope Q_scope.

Lemma sumQ_scale (L t : Q) (gs : list Q) :
  sumQ (map (fun g => L * g / t) gs) == L * sumQ gs / t.
Proof.
  induction gs as [|g gs IH]; simpl.
  - unfold Qdiv. ring.
  - rewrite IH. unfold Qdiv. ring.
Qed.

Lemma sumQ_mul (L : Q) (gs : list Q) : sumQ (map (fun g => L * g) gs) == L * sumQ gs.
Proof. induction gs as [|g gs IH]; simpl; [ring|]. rewrite IH. ring. Qed.

(** Weights summing to at least 1 fill the main axis exactly. *)
Lemma distribute_fills (L : Q) (gs : list Q) :
  1 <= sumQ gs -> sumQ (distribute L gs) == L.
Proof.
  intros H. unfold distribute.
  assert (E : Qle_bool 1 (sumQ gs) = true) by (now apply Qle_bool_iff).
  rewrite E, sumQ_scale. field. intros Hz. lra.
Qed.

(** Weights summing to less than 1 leave [L * (1 - sum)] of the axis
    empty: CSS does not normalise them. *)
Lemma distribute_underfull (L : Q) (gs : list Q) :
  sumQ gs < 1 -> sumQ (distribute L gs) == L * sumQ gs.
Proof.
  intros H. unfold distribute.
  destruct (Qle_bool 1 (sumQ gs)) eqn:E.
  - apply Qle_bool_iff in E. lra.
  - apply sumQ_mul.
Qed.
End Distribution.

Section Shares.
Context {E : Type}.

Lemma css_flex_pos (q : Q) : (0 < q)%Q -> css_flex (Num q) = Some q.
Proof.
  intros H. simpl. destruct (Qle_bool 0 q) eqn:E0; [done|].
  assert (Qle_bool 0 q = true) by (apply Qle_bool_iff; lra). congruence.
Qed.

Lemma mapM_css_flex_pos (qs : list Q) :
  Forall (fun q => 0 < q)%Q qs -> mapM css_flex (map Num qs) = Some qs.
Proof.
  intros Hpos.
  rewrite (mapM_Some_map _ (fun n => match n with Num q => q | _ => 0%Q end)).
  - by rewrite map_map, map_id.
  - intros x [q [<- Hq]]%in_map_iff. apply css_flex_pos.
    rewrite Forall_forall in Hpos. auto.
Qed.

(** With one positive ratio per child the cells carry exactly the
    ratios, in order. *)
Lemma FlexContainer_flexes (p : FlexProps E) (qs : list Q) :
  ratios_prop p = Some (map Num qs) -> Forall (fun q => 0 < q)%Q qs ->
  length (toArray (children p)) = length qs ->
  map cell_flex (cells (FlexContainer p)) = map Num qs.
Proof.
  intros Hr Hpos Hlen. apply list_eq. intros i.
  rewrite FlexContainer_flex_lookup, lookup_map_list, Hr. simpl.
  destruct (toArray (children p) !! i) eqn:Hc; simpl.
  - assert (Hi : (i < length qs)%nat) by (rewrite <- Hlen; eapply lookup_lt_Some; eauto).
    destruct (lookup_lt_is_Some_2 qs i Hi) as [q Hq]. rewrite Hq. simpl.
    rewrite (resolve_flex_present _ _ (Num q)) by (by rewrite lookup_map_list, Hq).
    f_equal. apply js_or_truthy, truthy_Num. rewrite Forall_lookup in Hpos.
    specialize (Hpos i q Hq). lra.
  - apply lookup_ge_None in Hc. by rewrite lookup_ge_None_2 by lia.
Qed.

End Shares.

(** ** The specification's scenarios and witnesses *)

Section Scenarios.
Open Scope Q_scope.

Definition abc : node string := NArray [NElement "a"; NElement "b"; NElement "c"].

Definition flex_props (d : option direction) (ch : node string) (rs : option (list number))
  : FlexProps string :=
  {| children := ch; direction_prop := d; ratios_prop := rs; className_prop := None |}.

Definition weights (p : FlexProps string) : list number :=
  map cell_flex (cells (FlexContainer p)).

(** Scenario A: the third child defaults to 1. *)
Example scenario_A :
  weights (flex_props None abc (Some [Num 0.15; Num 0.85])) = [Num 0.15; Num 0.85; Num 1].
Proof. reflexivity. Qed.

(** Scenario B: no ratios. *)
Example scenario_B : weights (flex_props None abc (Some [])) = [Num 1; Num 1; Num 1].
Proof. reflexivity. Qed.

(** Scenario C: an extra ratio is ignored. *)
Example scenario_C :
  weights (flex_props None (NElement "a") (Some [Num 0.4; Num 0.6])) = [Num 0.4].
Proof. reflexivity. Qed.

(** Scenario D: [row] and [column] differ only in the axis class. *)
Example scenario_D :
  weights (flex_props (Some row) abc (Some [Num 0.15])) =
    weights (flex_props (Some column) abc (Some [Num 0.15])) /\
  container_className (FlexContainer (flex_props (Some row) abc None)) = "flex w-full h-full flex-row "%string /\
  container_className (FlexContainer (flex_props None abc None)) = "flex w-full h-full flex-col "%string.
Proof. split; [|split]; reflexivity. Qed.

(** Zero and [NaN] fall back to 1. *)
Example falsy_ratios : weights (flex_props None abc (Some [Num 0; NaN; Num 2])) = [Num 1; Num 1; Num 2].
Proof. reflexivity. Qed.

Lemma FlexContainer_cell_flex_witness :
  cells (FlexContainer (flex_props None abc (Some [Num 0.15; Num 0.85]))) !! 2%nat =
    Some {| cell_key := 2; cell_flex := Num 1; cell_className := cell_class;
            cell_child := CElement "c" |}.
Proof. rewrite (FlexContainer_cell_flex _ 2 (CElement "c")) by reflexivity. reflexivity. Defined.

Lemma FlexContainer_refines_spec_witness :
  layout_of (FlexContainer (flex_props None abc (Some [Num 0.15; Num 0.85]))) =
    [(CElement "a", Num 0.15); (CElement "b", Num 0.85); (CElement "c", Num 1)].
Proof.
  rewrite FlexContainer_refines_spec.
  - reflexivity.
  - repeat constructor; simpl; lra.
Defined.

Lemma FlexContainer_negative_ratio_witness :
  resolve_flex [Num 0.5; Num (-1)] 1 = Num (-1) /\ spec_weight [Num 0.5; Num (-1)] 1 = Num 1 /\
  css_flex (resolve_flex [Num 0.5; Num (-1)] 1) = None.
Proof. apply FlexContainer_negative_ratio; [reflexivity | lra]. Defined.

End Scenarios.
