(* ===== verification/Remotion.v ===== *)
(** * The Remotion runtime the scenes are rendered by

    The scenes call three things of the Remotion framework and React's DOM
    renderer, modelled here from their documented behaviour:
    - [spring({ fps, frame, config })]: an interface, the [SpringModel]
      class, with the laws the scenes rely on.  Remotion integrates the
      spring from rest at [0] frame by frame; for [frame <= 0] it returns
      exactly its start value [0], it stays in [[0, 1]] for an overdamped
      configuration such as [{ damping: 100, stiffness: 200 }], and it has
      left [0] after one frame.  [linear_spring] is one model of the laws,
      used to instantiate theorems on concrete frames.
    - the host elements the scenes build: [<Sequence from>],
      [<AbsoluteFill>], [<div>], text elements, the star [<svg>], [<Audio>]
      and the [FlexContainer] component ([el]).
    - rendering at an absolute frame ([collect], [visible]): a
      [<Sequence from={n}>] nested in sequences that start at absolute
      frame [s] starts at [s + n] (Remotion's [cumulatedFrom]) and renders
      [null] before it; CSS opacity multiplies down the tree; an
      [<AbsoluteFill>] (and the fill every [<Sequence>] renders) is
      absolutely positioned and covers its containing block, the nearest
      positioned ancestor; positioned boxes paint in tree order over what
      precedes them, and hide it when their class paints an opaque
      background ([opaque_class]: a solid [bg-] colour or a gradient
      between solid colours; not [bg-transparent], [bg-white/50], a
      [bg-opacity-N] below 100 or a [bg-] utility that sets no colour).  A [FlexContainer] node is rendered through the
      container [FlexContainer.FlexContainer] returns: its outer div, then
      one cell per flattened child.

    Also here: [el_ind'], induction over elements with hypotheses on the
    elements a [FlexContainer]'s children flatten to; the invariant that
    rendering keeps opacities in [[0, 1]] ([collect_opacity_range]); and
    the tactics that evaluate a rendered scene at a symbolic frame and
    decide, leaf by leaf, whether it is shown and whether a later fill
    covers it.

    Not modelled here: sizes of text and images; transforms, which
    [Layout] paints (they move and scale boxes but change neither their
    opacity nor their order); [durationInFrames] of sequences (every
    sequence of the scenes is open-ended). *)

From Stdlib Require Import String Ascii ZArith QArith Lqa Lia.
From stdpp Require Import base list decidable sets.
From S2P Require Import Prelude Js ReactChildren FlexContainer.

(** ** Springs *)

Class SpringModel := {
  (** [spring({ fps, frame, config: { damping: 100, stiffness: 200 } })] *)
  spring : Z -> Z -> Q;
  spring_at_rest : forall fps n, (n <= 0)%Z -> spring fps n = 0%Q;
  spring_range : forall fps n, (0 <= spring fps n <= 1)%Q;
  spring_moves : forall fps n, (0 < fps)%Z -> (0 < n)%Z -> (0 < spring fps n)%Q
}.

(** A model of the laws: [n / (n + fps)] after the start. *)
Definition linear_spring_fn (fps n : Z) : Q :=
  if (n <=? 0)%Z then 0%Q else (inject_Z n / inject_Z (n + Z.abs fps))%Q.

Lemma linear_spring_at_rest fps n : (n <= 0)%Z -> linear_spring_fn fps n = 0%Q.
Proof. intros Hn. unfold linear_spring_fn. now rewrite (proj2 (Z.leb_le n 0) Hn). Qed.

Lemma linear_spring_range fps n : (0 <= linear_spring_fn fps n <= 1)%Q.
Proof.
  unfold linear_spring_fn. destruct (n <=? 0)%Z eqn:E; [lra|].
  apply Z.leb_gt in E. assert (Ha := Z.abs_nonneg fps).
  assert (H0 : (0 < inject_Z (n + Z.abs fps))%Q) by (change 0%Q with (inject_Z 0); qify; lia).
  split.
  - apply Qle_shift_div_l; [done|]. rewrite Qmult_0_l. change 0%Q with (inject_Z 0). qify. lia.
  - apply Qle_shift_div_r; [done|]. rewrite Qmult_1_l. qify. lia.
Qed.

Lemma linear_spring_moves fps n : (0 < fps)%Z -> (0 < n)%Z -> (0 < linear_spring_fn fps n)%Q.
Proof.
  intros Hf Hn. unfold linear_spring_fn.
  destruct (n <=? 0)%Z eqn:E; [apply Z.leb_le in E; lia|].
  apply Qlt_shift_div_l; [change 0%Q with (inject_Z 0); qify; lia|].
  rewrite Qmult_0_l. change 0%Q with (inject_Z 0). qify. lia.
Qed.

Definition linear_spring : SpringModel :=
  {| spring := linear_spring_fn; spring_at_rest := linear_spring_at_rest;
     spring_range := linear_spring_range; spring_moves := linear_spring_moves |}.

(** ** Host elements *)

Inductive transform :=
| Scale (k : Q)
| TranslateY (px : Q).

Record style := {
  opacity : option Q;
  transform_of : option transform
}.

Definition no_style : style := {| opacity := None; transform_of := None |}.

#[local] Set Warnings "-register-all".
Inductive el :=
| Sequence (from : Z) (kids : list el)
| AbsoluteFill (className : string) (kids : list el)
| Div (className : string) (st : style) (kids : list el)
| Text (tag : string) (className : string) (st : style) (content : string)
| Svg (size : Z) (className : string) (st : style)
| Audio (src : string)
| Flex (direction : option direction) (ratios : option (list number))
       (className : option string) (kids : node el).

(** ** Classes *)

(** The whitespace-separated words of a [className]. *)
Fixpoint words_acc (cur : string) (s : string) : list string :=
  match s with
  | EmptyString => if String.eqb cur "" then [] else [cur]
  | String c s' =>
      if Ascii.eqb c " "%char
      then (if String.eqb cur "" then [] else [cur]) ++ words_acc "" s'
      else words_acc (cur ++ String c EmptyString) s'
  end.

Definition words (s : string) : list string := words_acc "" s.

Definition has_class (cls w : string) : bool := existsb (String.eqb w) (words cls).

(** Tailwind's [relative] and [absolute] make a box positioned. *)
Definition positioned_class (cls : string) : bool :=
  has_class cls "relative" || has_class cls "absolute".

(** A colour utility without an opacity modifier ([bg-white/50]) and
    other than [transparent]: the colour of [bg-], [from-] or [to-]. *)
Definition solid_color (prefix w : string) : bool :=
  String.prefix prefix w &&
  negb (List.existsb (fun c => Ascii.eqb c "/"%char) (list_ascii_of_string w)) &&
  negb (String.eqb w (prefix ++ "transparent")) && negb (String.eqb w (prefix ++ "none")).

(** The [bg-] utilities that do not paint a colour: position, size,
    repetition, attachment, clipping, blending, opacity and the gradient
    direction. *)
Definition bg_layout_prefixes : list string :=
  ["bg-opacity-"; "bg-clip-"; "bg-origin-"; "bg-repeat"; "bg-no-repeat"; "bg-blend-";
   "bg-fixed"; "bg-local"; "bg-scroll"; "bg-auto"; "bg-cover"; "bg-contain"; "bg-center";
   "bg-top"; "bg-bottom"; "bg-left"; "bg-right"; "bg-gradient-"]%string.

(** A class paints an opaque background: a solid [bg-] colour, or a
    [bg-gradient-to-] gradient between solid [from-] and [to-] colours,
    with no [bg-opacity-N] below 100. *)
Definition opaque_class (cls : string) : bool :=
  let ws := words cls in
  (List.existsb (fun w => solid_color "bg-" w &&
                          negb (List.existsb (fun p => String.prefix p w) bg_layout_prefixes)) ws ||
   (List.existsb (String.prefix "bg-gradient-to-") ws &&
    List.existsb (solid_color "from-") ws && List.existsb (solid_color "to-") ws)) &&
  negb (List.existsb (fun w => String.prefix "bg-opacity-" w && negb (String.eqb w "bg-opacity-100")) ws).

(** ** Rendering at a frame *)

Inductive leaf_kind :=
| KText (tag : string) (content : string)
| KSvg (size : Z)
| KAudio (src : string)
| KFill (opaque : bool).

(** A rendered leaf: its kind, its position in the tree, the box it lies
    in (a path of boxes from the root; a fill's box is its containing
    block's box), the first absolute frame at which all its enclosing
    sequences render it, and its effective opacity. *)
Record leaf := {
  lf_kind : leaf_kind;
  lf_path : list nat;
  lf_box : list nat;
  lf_mount : Z;
  lf_opacity : Q
}.

(** The context a node is rendered in: its position in the tree, its box,
    the box of its containing block (nearest positioned ancestor), the
    mount frame and absolute start of the innermost sequence
    ([cumulatedFrom + from]), and the opacity of its ancestors. *)
Record ctx := {
  cx_path : list nat;
  cx_box : list nat;
  cx_block : list nat;
  cx_mount : Z;
  cx_start : Z;
  cx_opacity : Q
}.

Definition root_ctx : ctx :=
  {| cx_path := []; cx_box := []; cx_block := []; cx_mount := 0; cx_start := 0; cx_opacity := 1 |}.

Definition child_ctx (cx : ctx) (i : nat) : ctx :=
  {| cx_path := cx_path cx ++ [i]; cx_box := cx_box cx ++ [i]; cx_block := cx_block cx;
     cx_mount := cx_mount cx; cx_start := cx_start cx; cx_opacity := cx_opacity cx |}.

(** A fill ([<AbsoluteFill>], or the one a [<Sequence>] renders) is the box
    of its containing block, and the containing block of its content. *)
Definition fill_ctx (cx : ctx) : ctx :=
  {| cx_path := cx_path cx; cx_box := cx_block cx; cx_block := cx_block cx;
     cx_mount := cx_mount cx; cx_start := cx_start cx; cx_opacity := cx_opacity cx |}.

(** [<Sequence from>]: Remotion's [cumulatedFrom + from]; it renders
    nothing before that frame. *)
Definition sequence_ctx (cx : ctx) (from : Z) : ctx :=
  let start := (cx_start cx + from)%Z in
  {| cx_path := cx_path cx; cx_box := cx_block cx; cx_block := cx_block cx;
     cx_mount := Z.max (cx_mount cx) start; cx_start := start; cx_opacity := cx_opacity cx |}.

(** A [div] with a style: [relative] makes its box the containing block,
    [absolute] places its box inside the containing block. *)
Definition div_ctx (cx : ctx) (cls : string) (st : style) : ctx :=
  let box := if has_class cls "absolute" then cx_block cx ++ [length (cx_path cx)] else cx_box cx in
  {| cx_path := cx_path cx; cx_box := box;
     cx_block := if positioned_class cls then box else cx_block cx;
     cx_mount := cx_mount cx; cx_start := cx_start cx;
     cx_opacity := (cx_opacity cx * default 1 (opacity st))%Q |}.

Definition mk_leaf (k : leaf_kind) (cx : ctx) (st : style) : leaf :=
  {| lf_kind := k; lf_path := cx_path cx; lf_box := cx_box cx; lf_mount := cx_mount cx;
     lf_opacity := (cx_opacity cx * default 1 (opacity st))%Q |}.

(** The cell [i] of a container and the child inside it. *)
Definition cell_ctx (cx : ctx) (c : cell el) : ctx := child_ctx (child_ctx cx (cell_key c)) 0.

Definition flex_props_of (d : option direction) (r : option (list number)) (c : option string)
  (kids : node el) : FlexProps el :=
  {| children := kids; direction_prop := d; ratios_prop := r; className_prop := c |}.

(** A flattened child rendered in context [cx]: a string or a number is
    a text node (the digits of a number are not modelled), an element is
    rendered by [render]. *)
Definition render_child (render : el -> ctx -> list leaf) (c : child el) (cx : ctx) : list leaf :=
  match c with
  | CString s => [mk_leaf (KText "" s) cx no_style]
  | CNumber _ => [mk_leaf (KText "" "") cx no_style]
  | CElement e => render e cx
  end.

(** The leaves of [e] rendered in context [cx], in tree (paint) order.  A
    [Flex] node is rendered through the container [FlexContainer] returns:
    the [i]-th cell holds the [i]-th flattened child. *)
Fixpoint collect (e : el) (cx : ctx) {struct e} : list leaf :=
  match e with
  | Sequence from ks =>
      List.concat (mapi (fun i k => collect k (child_ctx (sequence_ctx cx from) i)) ks)
  | AbsoluteFill cls ks =>
      mk_leaf (KFill (opaque_class cls)) (fill_ctx cx) no_style ::
      List.concat (mapi (fun i k => collect k (child_ctx (fill_ctx cx) i)) ks)
  | Div cls st ks =>
      List.concat (mapi (fun i k => collect k (child_ctx (div_ctx cx cls st) i)) ks)
  | Text tag _ st s => [mk_leaf (KText tag s) cx st]
  | Svg size _ st => [mk_leaf (KSvg size) cx st]
  | Audio src => [mk_leaf (KAudio src) cx no_style]
  | Flex d r c kids =>
      List.concat (zip_with (fun c render => render (cell_ctx cx c))
                            (cells (FlexContainer (flex_props_of d r c kids)))
                            (node_map (render_child collect) kids))
  end.

(** The styles set anywhere in a tree, in tree order. *)
Fixpoint styles (e : el) : list style :=
  match e with
  | Sequence _ ks | AbsoluteFill _ ks => List.concat (map styles ks)
  | Div _ st ks => st :: List.concat (map styles ks)
  | Text _ _ st _ | Svg _ _ st => [st]
  | Audio _ => []
  | Flex _ _ _ kids =>
      List.concat (node_map (fun c => match c with CElement e' => styles e' | _ => [] end) kids)
  end.

(** A CSS opacity that needs no clamping. *)
Definition opacity_ok (st : style) : Prop := (0 <= default 1 (opacity st) <= 1)%Q.

(** [is_prefix p l]: the box at path [p] contains the box at path [l]. *)
Fixpoint is_prefix (p l : list nat) : bool :=
  match p, l with
  | [], _ => true
  | i :: p', j :: l' => Nat.eqb i j && is_prefix p' l'
  | _ :: _, [] => false
  end.

(** [F] hides [L] at frame [f]: [F] is an opaque fill, rendered at [f]
    with full opacity, and [L] lies inside the box [F] covers. *)
Definition covers (f : Z) (F L : leaf) : bool :=
  match lf_kind F with
  | KFill true =>
      (lf_mount F <=? f)%Z && Qeq_bool (lf_opacity F) 1 &&
      is_prefix (lf_box F) (lf_box L)
  | _ => false
  end.

(** [L] is rendered at [f] and not fully transparent. *)
Definition shown (f : Z) (L : leaf) : bool :=
  (lf_mount L <=? f)%Z && negb (Qle_bool (lf_opacity L) 0).

(** The leaves a viewer sees at frame [f]: shown and not covered by a
    fill painted later. *)
Fixpoint visible (f : Z) (ls : list leaf) : list leaf :=
  match ls with
  | [] => []
  | L :: rest =>
      (if shown f L && negb (existsb (fun F => covers f F L) rest) then [L] else [])
      ++ visible f rest
  end.

(** The frame [f] of a component [scene], as Remotion renders it. *)
Definition frame_leaves (scene : Z -> el) (f : Z) : list leaf := collect (scene f) root_ctx.

Definition seen (scene : Z -> el) (f : Z) : list leaf := visible f (frame_leaves scene f).

(** The contents of the text leaves of a rendered list. *)
Definition texts_of (ls : list leaf) : list string :=
  omap (fun L => match lf_kind L with KText _ s => Some s | _ => None end) ls.

(** A text with the given content is among the leaves. *)
Definition has_text (s : string) (L : leaf) : Prop := exists tag, lf_kind L = KText tag s.

(** A background fill, painted beneath its content. *)
Definition is_fill (L : leaf) : Prop := exists b, lf_kind L = KFill b.

(** The mount frame of the first text leaf with the given content. *)
Definition mount_of (content : string) (ls : list leaf) : option Z :=
  lf_mount <$> list_find_first (fun L => match lf_kind L with
                                         | KText _ s => String.eqb s content
                                         | _ => false
                                         end) ls.

(** ** Lemmas *)

(** Splitting at a space splits the class list. *)
Lemma words_acc_space (cur s1 s2 : string) :
  words_acc cur (s1 ++ String " " s2) = words_acc cur s1 ++ words_acc "" s2.
Proof.
  revert cur. induction s1 as [|c s1 IH]; intros cur; simpl; [done|].
  destruct (Ascii.eqb c " "%char); [by rewrite IH, app_assoc | apply IH].
Qed.

Lemma words_space (s1 s2 : string) : words (s1 ++ " " ++ s2) = words s1 ++ words s2.
Proof. apply words_acc_space. Qed.

(** The scenes' backgrounds are opaque; transparent, faded or non-colour
    [bg-] utilities are not. *)
Example opaque_class_cases :
  map opaque_class
    ["w-full h-full bg-gradient-to-br from-orange-100 to-yellow-100"; "bg-white rounded";
     "bg-transparent"; "bg-white/50"; "bg-white bg-opacity-50"; "bg-cover bg-center";
     "bg-gradient-to-br from-white to-transparent"]%string =
  [true; true; false; false; false; false; false].
Proof. reflexivity. Qed.

(** C22: the class list of [FlexContainer]'s outer [div], as the
    browser splits its template literal: [flex], [w-full], [h-full],
    [flex-row] for [direction="row"] and [flex-col] otherwise (also when
    [direction] is omitted),
    then the words of the [className] prop; an empty [className] leaves
    only a trailing space, which adds no class. *)
Theorem FlexContainer_classes {E} (p : FlexProps E) :
  words (container_className (FlexContainer p)) =
    ["flex"%string; "w-full"%string; "h-full"%string;
     match direction_prop p with Some row => "flex-row"%string | _ => "flex-col"%string end] ++
    words (default ""%string (className_prop p)).
Proof.
  cbn [FlexContainer container_className].
  change ("flex w-full h-full " ++ ?x)%string with ("flex w-full h-full" ++ " " ++ x)%string.
  rewrite !words_space. unfold axis_class. by destruct (direction_prop p) as [[]|].
Qed.

(** To show that no visible leaf has a property, walk the rendered list:
    each leaf lacks it, is not shown, or is covered by a later fill. *)
Lemma visible_Forall_cons (P : leaf -> Prop) (f : Z) (L : leaf) (rest : list leaf) :
  (P L \/ shown f L = false \/ existsb (fun F => covers f F L) rest = true) ->
  Forall P (visible f rest) -> Forall P (visible f (L :: rest)).
Proof.
  intros HL Hrest. simpl. apply Forall_app. split; [|done].
  destruct HL as [HP|[Hs|Hc]].
  - destruct (_ && _); auto.
  - by rewrite Hs.
  - rewrite Hc, andb_false_r. constructor.
Qed.

Lemma visible_nil_Forall (P : leaf -> Prop) f : Forall P (visible f []).
Proof. constructor. Qed.

(** A leaf with opacity 0 is not shown. *)
Lemma shown_opacity_zero f L : (lf_opacity L == 0)%Q -> shown f L = false.
Proof.
  intros H. unfold shown. destruct (Qle_bool (lf_opacity L) 0) eqn:E.
  - by rewrite andb_false_r.
  - exfalso. assert (Qle_bool (lf_opacity L) 0 = true) by (apply Qle_bool_iff; rewrite H; lra).
    congruence.
Qed.

Lemma shown_not_mounted f L : (f < lf_mount L)%Z -> shown f L = false.
Proof. intros H. unfold shown. by rewrite (proj2 (Z.leb_gt _ _) H). Qed.

(** Every visible leaf is a rendered, shown leaf. *)
Lemma visible_sub f ls L : L ∈ visible f ls -> L ∈ ls /\ shown f L = true.
Proof.
  induction ls as [|L' ls IH]; simpl; [set_solver|].
  rewrite elem_of_app. intros [HL|HL].
  - destruct (shown f L' && _) eqn:E; [|set_solver].
    apply list_elem_of_singleton in HL as ->. apply andb_true_iff in E as [E _].
    split; [left|]; done.
  - destruct (IH HL). split; [right|]; done.
Qed.

(** To show that some visible leaf has a property, find it in the
    rendered list: it has the property, is shown, and no later fill
    covers it. *)
Lemma visible_Exists_here (P : leaf -> Prop) (f : Z) (L : leaf) (rest : list leaf) :
  P L -> shown f L = true -> existsb (fun F => covers f F L) rest = false ->
  Exists P (visible f (L :: rest)).
Proof. intros HP Hs Hc. simpl. rewrite Hs, Hc. simpl. by constructor. Qed.

Lemma visible_Exists_later (P : leaf -> Prop) (f : Z) (L : leaf) (rest : list leaf) :
  Exists P (visible f rest) -> Exists P (visible f (L :: rest)).
Proof. intros H. simpl. apply Exists_app. by right. Qed.

Lemma shown_intro f L : (lf_mount L <= f)%Z -> (0 < lf_opacity L)%Q -> shown f L = true.
Proof.
  intros Hm Ho. unfold shown. apply andb_true_intro. split; [by apply Z.leb_le|].
  apply negb_true_iff. destruct (Qle_bool _ _) eqn:E; [|done]. apply Qle_bool_iff in E. lra.
Qed.

Lemma existsb_false_Forall {A} (p : A -> bool) (l : list A) :
  Forall (fun x => p x = false) l -> existsb p l = false.
Proof. induction 1 as [|x l Hx _ IH]; simpl; [done|]. by rewrite Hx, IH. Qed.

(** No leaf with the property is visible. *)
Lemma not_Exists_visible (P : leaf -> Prop) f ls :
  Forall (fun L => ~ P L) (visible f ls) -> ~ Exists P (visible f ls).
Proof. intros H HE. apply Exists_exists in HE as (L & HL & HP). rewrite Forall_forall in H. by apply (H L). Qed.

(** ** Induction over elements *)

(** The hypothesis of [el_ind'] on a flattened child. *)
Definition child_Forall (P : el -> Prop) (c : child el) : Prop :=
  match c with CElement e => P e | _ => True end.

(** Induction over [el], with the hypothesis on every child of a list and
    on every element [React.Children.toArray] finds in a [Flex] node. *)
Lemma el_ind' (P : el -> Prop) :
  (forall from ks, Forall P ks -> P (Sequence from ks)) ->
  (forall cls ks, Forall P ks -> P (AbsoluteFill cls ks)) ->
  (forall cls st ks, Forall P ks -> P (Div cls st ks)) ->
  (forall tag cls st s, P (Text tag cls st s)) ->
  (forall size cls st, P (Svg size cls st)) ->
  (forall src, P (Audio src)) ->
  (forall d r c kids, Forall (child_Forall P) (toArray kids) -> P (Flex d r c kids)) ->
  forall e, P e.
Proof.
  intros HSeq HFill HDiv HText HSvg HAudio HFlex. fix IH 1.
  intros [from ks | cls ks | cls st ks | tag cls st s | size cls st | src | d r c kids].
  - apply HSeq. induction ks as [|k ks IHks]; [constructor | constructor; [apply IH | exact IHks]].
  - apply HFill. induction ks as [|k ks IHks]; [constructor | constructor; [apply IH | exact IHks]].
  - apply HDiv. induction ks as [|k ks IHks]; [constructor | constructor; [apply IH | exact IHks]].
  - apply HText.
  - apply HSvg.
  - apply HAudio.
  - apply HFlex. revert kids. fix IHn 1.
    intros [| | b | s | x | e | l]; try (repeat constructor; fail).
    + constructor; [apply IH | constructor].
    + rewrite toArray_NArray. induction l as [|n l IHl]; [constructor|].
      simpl. apply Forall_app. split; [apply IHn | exact IHl].
Qed.

(** ** Invariants of rendering *)

Definition unit_range (q : Q) : Prop := (0 <= q <= 1)%Q.

Lemma mk_leaf_opacity_range k cx st :
  opacity_ok st -> unit_range (cx_opacity cx) -> unit_range (lf_opacity (mk_leaf k cx st)).
Proof. intros Hst Hcx. by apply Qmult_unit_range. Qed.

Lemma div_ctx_opacity_range cx cls st :
  opacity_ok st -> unit_range (cx_opacity cx) -> unit_range (cx_opacity (div_ctx cx cls st)).
Proof. intros Hst Hcx. by apply Qmult_unit_range. Qed.

Lemma no_style_ok : opacity_ok no_style.
Proof. unfold opacity_ok. simpl. lra. Qed.

#[local] Hint Resolve mk_leaf_opacity_range div_ctx_opacity_range no_style_ok : core.

(** CSS opacity multiplies down the tree: a tree whose styles need no
    clamping, rendered in a context of opacity in [[0, 1]], renders
    leaves of opacity in [[0, 1]]. *)
Lemma collect_opacity_range (e : el) (cx : ctx) :
  Forall opacity_ok (styles e) -> unit_range (cx_opacity cx) ->
  Forall (fun L => unit_range (lf_opacity L)) (collect e cx).
Proof.
  revert cx.
  induction e as [from ks IH|cls ks IH|cls st ks IH|tag cls st s|size cls st|src|d r c kids IH]
    using el_ind'; intros cx Hst Hcx; cbn [styles collect] in Hst |- *.
  - apply Forall_concat_mapi_from. intros j k Hk. rewrite Forall_forall in IH.
    apply IH; [done | by eapply Forall_concat_map_elem | done].
  - constructor; [by apply mk_leaf_opacity_range|].
    apply Forall_concat_mapi_from. intros j k Hk. rewrite Forall_forall in IH.
    apply IH; [done | by eapply Forall_concat_map_elem | done].
  - apply Forall_cons_iff in Hst as [Hst Hks].
    apply Forall_concat_mapi_from. intros j k Hk. rewrite Forall_forall in IH.
    apply IH; [done | by eapply Forall_concat_map_elem | by apply div_ctx_opacity_range].
  - apply Forall_cons_iff in Hst as [Hst _]. constructor; [by apply mk_leaf_opacity_range | constructor].
  - apply Forall_cons_iff in Hst as [Hst _]. constructor; [by apply mk_leaf_opacity_range | constructor].
  - constructor; [by apply mk_leaf_opacity_range | constructor].
  - apply Forall_concat_zip_with. intros cl rnd _ Hr.
    rewrite node_map_toArray in Hr. rewrite node_map_toArray in Hst.
    apply list_elem_of_In, in_map_iff in Hr as [ch [<- Hch]]. apply list_elem_of_In in Hch.
    destruct ch as [s|x|e']; cbn [render_child];
      [constructor; [by apply mk_leaf_opacity_range | constructor] .. |].
    rewrite Forall_forall in IH. specialize (IH _ Hch). apply IH; [|done].
    exact (Forall_concat_map_elem _ _ _ _ Hst Hch).
Qed.

#[export] Hint Resolve visible_nil_Forall shown_opacity_zero shown_not_mounted : remotion.

(** ** Tactics for rendered scenes *)

(** Evaluate a rendered scene to its list of leaves, keeping the spring,
    rational products and comparisons, integer arithmetic and [visible]
    folded so that [lia] and [lra] can read what remains. *)
Ltac eval_leaves :=
  cbv -[visible Qmult Qeq spring Z.max Z.add Z.sub Z.mul Z.lt Z.le Z.leb].

(** Close [spring fps n == 0]-shaped goals for a leaf whose spring has not
    started: rewrite every spring at rest, then rational arithmetic. *)
Ltac springs_at_rest :=
  repeat match goal with
         | |- context [if (?a <? ?b)%Z then _ else _] => destruct (Z.ltb_spec a b)
         end;
  repeat (rewrite spring_at_rest by lia); lra.

(** Find, in the rest of the rendered list, a fill that covers the leaf. *)
Ltac find_cover :=
  apply existsb_Exists_true;
  repeat (first
    [ apply Exists_cons_hd; unfold covers; simpl;
      rewrite ?(proj2 (Z.leb_le _ _)) by lia; reflexivity
    | apply Exists_cons_tl ]).

(** Walk [Forall P (visible f [L1; ...; Ln])], discharging each leaf with
    [tac]. *)
Ltac walk_visible tac :=
  repeat (simple apply visible_Forall_cons; [tac|]); simple apply visible_nil_Forall.

(** Discharge [Forall opacity_ok (styles scene)] for a scene whose
    opacities are springs or guarded springs. *)
Ltac styles_ok :=
  cbv -[spring Qmult Qplus Qminus Z.add Z.sub Z.mul Z.ltb Qle];
  repeat (apply List.Forall_cons;
          [ unfold opacity_ok; cbn [default opacity];
            repeat match goal with |- context [if ?b then _ else _] => destruct b end;
            first [apply spring_range | lra] | ]);
  apply List.Forall_nil.

(** [0 < q] for a product of springs that have all started. *)
Ltac springs_pos :=
  repeat match goal with
         | |- context [if (?a <? ?b)%Z then _ else _] =>
             destruct (Z.ltb_spec a b); [lia|]
         end;
  repeat match goal with
         | |- context [spring ?fps ?n] =>
             lazymatch goal with
             | _ : (0 < spring fps n)%Q |- _ => fail
             | _ => pose proof (spring_moves fps n ltac:(lia) ltac:(lia))
             end
         end;
  nra.

(** [F] does not cover the leaf: it is no opaque fill, is mounted after
    the frame, or lies elsewhere. *)
Ltac not_covering :=
  unfold covers; cbn -[Z.leb Qeq_bool];
  first [ reflexivity
        | rewrite (proj2 (Z.leb_gt _ _)) by lia; reflexivity
        | rewrite !andb_false_r; reflexivity ].

(** No later fill covers the leaf. *)
Ltac no_cover :=
  apply existsb_false_Forall; repeat (apply List.Forall_cons; [not_covering|]); apply List.Forall_nil.

(** Find a leaf with property [tac] that is visible at the frame. *)
Ltac find_visible tac :=
  repeat (first
    [ apply visible_Exists_here;
      [ tac | apply shown_intro; cbn [lf_mount lf_opacity]; [lia | springs_pos] | no_cover ]
    | apply visible_Exists_later ]).

(** A leaf that does not carry the text. *)
Ltac not_this_text :=
  let Hk := fresh in
  intros [? Hk]; cbn in Hk; first [discriminate | injection Hk as _ Hk; discriminate].

(** A text is seen exactly in the window [lo < f < hi], or, in a region of
    frames where it is not, at none of them. *)
Ltac window_tac :=
  lazymatch goal with
  | |- (_ -> ?W) /\ _ =>
      first
        [ assert W by lia;
          split; [intros _; lia | intros _; find_visible ltac:(eexists; reflexivity)]
        | assert (~ W) by lia;
          split;
          [ intros Hex; exfalso; revert Hex; apply not_Exists_visible;
            walk_visible ltac:(first
              [ left; not_this_text
              | right; left; apply shown_opacity_zero; cbn [lf_opacity]; springs_at_rest
              | right; left; apply shown_not_mounted; cbn [lf_mount]; lia
              | right; right; find_cover ])
          | intros; lia ] ]
  end.

(** Decide a storyboard's windows at a frame, cut into the regions of the
    disjunction [Hr]: in each region, each text is seen exactly when its
    window holds the frame. *)
Ltac windows_by_regions Hr :=
  repeat apply List.Forall_cons; try apply List.Forall_nil; destruct_or? Hr; window_tac.
