(* ===== verification/Layout.v ===== *)
(** * Box geometry of a rendered tree

    Where each rendered leaf is laid out on the screen, for the CSS the
    scenes use (Tailwind utilities and the styles [FlexContainer] and
    Remotion write):
    - a box of class [w-full h-full] fills the content box of its parent,
      less its own padding [p-N] ([4 * N] px);
    - an [absolute] box, an [<AbsoluteFill>] and the fill a [<Sequence>]
      renders ([position: absolute; inset: 0]) are laid out in their
      containing block: the padding box of the nearest [relative] or
      [absolute] ancestor; their padding and their parent's are ignored;
    - a [FlexContainer] fills its parent; its cells are not positioned,
      stretch across the cross axis and share the main axis, less the
      [gap-N] between them, as [FlexContainer.distribute] says
      ([cell_rects]);
    - any other box takes the size of its content, which is not modelled:
      its children are laid out in the area the box lies in;
    - a box with a [transform] paints its content through it: [scale(k)]
      about the centre of the box (the default origin), [translateY(d)]
      [d] px down; it is the containing block of its absolute
      descendants.  Content centred in the box stays centred in the
      scaled area.
    [layout e box block] lists, in the order [Remotion.collect] renders
    them, the leaves of [e] with the area each is laid out in; text is
    centred in it by the [items-center justify-center] of the scenes.

    Rectangles are compared with [rect_eq], equality of their rational
    coordinates, a setoid on which [inside] and [inset] are [Proper]. *)

From Stdlib Require Import String Ascii ZArith QArith Lqa Lia DecimalString.
From stdpp Require Import base list decidable.
From S2P Require Import Prelude Js ReactChildren FlexContainer Remotion.

Local Open Scope Q_scope.

(** ** Rectangles *)

Record rect := { rx : Q; ry : Q; rw : Q; rh : Q }.

Definition screen (W H : Q) : rect := {| rx := 0; ry := 0; rw := W; rh := H |}.

Definition rect_eq (a b : rect) : Prop :=
  rx a == rx b /\ ry a == ry b /\ rw a == rw b /\ rh a == rh b.

Infix "≡r" := rect_eq (at level 70) : remotion_scope.
Local Open Scope remotion_scope.

#[export] Instance rect_eq_Equivalence : Equivalence rect_eq.
Proof.
  split.
  - intros a. repeat split; reflexivity.
  - intros a b (?&?&?&?). repeat split; symmetry; assumption.
  - intros a b c (?&?&?&?) (?&?&?&?). repeat split; etransitivity; eassumption.
Qed.

(** [r] lies inside [s]. *)
Definition inside (r s : rect) : Prop :=
  rx s <= rx r /\ rx r + rw r <= rx s + rw s /\ ry s <= ry r /\ ry r + rh r <= ry s + rh s.

#[export] Instance inside_Proper : Proper (rect_eq ==> rect_eq ==> iff) inside.
Proof.
  intros a a' (Ha1&Ha2&Ha3&Ha4) b b' (Hb1&Hb2&Hb3&Hb4). unfold inside.
  rewrite Ha1, Ha2, Ha3, Ha4, Hb1, Hb2, Hb3, Hb4. reflexivity.
Qed.

(** The box less a padding [p] on each side. *)
Definition inset (p : Q) (r : rect) : rect :=
  {| rx := rx r + p; ry := ry r + p; rw := rw r - 2 * p; rh := rh r - 2 * p |}.

#[export] Instance inset_Proper : Proper (Qeq ==> rect_eq ==> rect_eq) inset.
Proof.
  intros p p' Hp r r' (H1&H2&H3&H4). unfold inset.
  repeat split; simpl; rewrite ?Hp, ?H1, ?H2, ?H3, ?H4; reflexivity.
Qed.

(** ** Transforms *)

(** [transform: scale(k)] about the default origin, the centre of the
    box [o]: a point [p] goes to [c + k * (p - c)]; a negative factor
    mirrors the box, which swaps its edges. *)
Definition scale_about (k : Q) (o r : rect) : rect :=
  let cx := rx o + rw o / 2 in
  let cy := ry o + rh o / 2 in
  if Qle_bool 0 k then
    {| rx := cx + k * (rx r - cx); ry := cy + k * (ry r - cy); rw := k * rw r; rh := k * rh r |}
  else
    {| rx := cx + k * (rx r + rw r - cx); ry := cy + k * (ry r + rh r - cy);
       rw := - k * rw r; rh := - k * rh r |}.

(** [transform: translateY(d px)]. *)
Definition translate_y (d : Q) (r : rect) : rect :=
  {| rx := rx r; ry := ry r + d; rw := rw r; rh := rh r |}.

(** The transform of a box [o], applied to an area painted inside it. *)
Definition apply_transform (t : option transform) (o r : rect) : rect :=
  match t with
  | Some (Scale k) => scale_about k o r
  | Some (TranslateY d) => translate_y d r
  | None => r
  end.

#[export] Instance scale_about_Proper : Proper (Qeq ==> rect_eq ==> rect_eq ==> rect_eq) scale_about.
Proof.
  intros k k' Hk o o' (Ho1&Ho2&Ho3&Ho4) r r' (Hr1&Hr2&Hr3&Hr4). unfold scale_about.
  assert (E : Qle_bool 0 k = Qle_bool 0 k').
  { destruct (Qle_bool 0 k) eqn:E1, (Qle_bool 0 k') eqn:E2; try done;
      rewrite ?Qle_bool_iff in *; apply not_true_iff_false in E1 || apply not_true_iff_false in E2;
      rewrite ?Qle_bool_iff in *; lra. }
  rewrite <- E. destruct (Qle_bool 0 k); repeat split; simpl; rewrite ?Hk, ?Ho1, ?Ho2, ?Ho3, ?Ho4, ?Hr1, ?Hr2, ?Hr3, ?Hr4;
    reflexivity.
Qed.

#[export] Instance translate_y_Proper : Proper (Qeq ==> rect_eq ==> rect_eq) translate_y.
Proof.
  intros d d' Hd r r' (Hr1&Hr2&Hr3&Hr4). repeat split; simpl; rewrite ?Hd, ?Hr1, ?Hr2, ?Hr3, ?Hr4; reflexivity.
Qed.

(** ** Tailwind spacing *)

(** The utility [prefix ++ N] among the words of a class: [N * 0.25rem],
    [4 * N] px at the default root font size; [0] without one. *)
Definition spacing (prefix cls : string) : Q :=
  match list_find_first (String.prefix prefix) (words cls) with
  | Some w =>
      match NilEmpty.uint_of_string (substring (String.length prefix) (String.length w) w) with
      | Some u => inject_Z (4 * Z.of_nat (Nat.of_uint u))
      | None => 0
      end
  | None => 0
  end.

(** ** Flex cells *)

Definition main_size (d : direction) (r : rect) : Q := if decide (d = row) then rw r else rh r.
Definition main_start (d : direction) (r : rect) : Q := if decide (d = row) then rx r else ry r.

(** The box of [r] from [off] to [off + size] on the main axis, across
    the whole cross axis. *)
Definition with_main (d : direction) (r : rect) (off size : Q) : rect :=
  if decide (d = row) then {| rx := off; ry := ry r; rw := size; rh := rh r |}
  else {| rx := rx r; ry := off; rw := rw r; rh := size |}.

(** Offsets of consecutive boxes of the given sizes, [gap] apart. *)
Fixpoint place (start gap : Q) (sizes : list Q) : list (Q * Q) :=
  match sizes with
  | [] => []
  | s :: rest => (start, s) :: place (start + s + gap) gap rest
  end.

(** The cells of a flex container of box [box]: the free space is the
    main size less the gaps; with a valid [flex] on every cell it is
    shared by [distribute]; otherwise every cell keeps the
    content-sized default and is only known to lie in [box]. *)
Definition cell_rects (box : rect) (d : direction) (gap : Q) (flexes : list number) : list rect :=
  let free := main_size d box - gap * inject_Z (Z.of_nat (length flexes - 1)) in
  match mapM css_flex flexes with
  | Some gs =>
      map (fun p => with_main d box (fst p) (snd p))
          (place (main_start d box) gap (distribute free gs))
  | None => map (fun _ => box) flexes
  end.

(** ** Layout *)

(** A [div]'s own box: an [absolute] one is placed in its containing
    block. *)
Definition div_own (cls : string) (box block : rect) : rect :=
  if has_class cls "absolute" then block else box.

(** A [div]'s content box and the containing block of its children; a
    transformed box is the containing block of its descendants, as a
    positioned one is. *)
Definition div_box (cls : string) (st : style) (box block : rect) : rect * rect :=
  let own := div_own cls box block in
  let inner := if has_class cls "w-full" && has_class cls "h-full"
               then inset (spacing "p-" cls) own else own in
  (inner, if positioned_class cls then own
          else match transform_of st with Some _ => own | None => block end).

(** Paint a laid-out leaf through the transform of a box [o]. *)
Definition transform_leaf (t : option transform) (o : rect) (p : leaf_kind * rect) : leaf_kind * rect :=
  (fst p, apply_transform t o (snd p)).

Definition layout_child (lay : el -> rect -> rect -> list (leaf_kind * rect)) (block : rect)
  (c : child el) (cell : rect) : list (leaf_kind * rect) :=
  match c with
  | CString s => [(KText "" s, cell)]
  | CNumber _ => [(KText "" "", cell)]
  | CElement e => lay e cell block
  end.

(** The leaves of [e] laid out in the content box [box] with containing
    block [block], in paint order. *)
Fixpoint layout (e : el) (box block : rect) {struct e} : list (leaf_kind * rect) :=
  match e with
  | Sequence _ ks => List.concat (map (fun k => layout k block block) ks)
  | AbsoluteFill cls ks =>
      (KFill (opaque_class cls), block) :: List.concat (map (fun k => layout k block block) ks)
  | Div cls st ks =>
      let '(inner, blk) := div_box cls st box block in
      map (transform_leaf (transform_of st) (div_own cls box block))
          (List.concat (map (fun k => layout k inner blk) ks))
  | Text tag _ st s => [(KText tag s, apply_transform (transform_of st) box box)]
  | Svg size _ st => [(KSvg size, apply_transform (transform_of st) box box)]
  | Audio src => [(KAudio src, box)]
  | Flex d r c kids =>
      let cont := FlexContainer (flex_props_of d r c kids) in
      let rects := cell_rects box (default column d) (spacing "gap-" (container_className cont))
                              (map cell_flex (cells cont)) in
      List.concat (zip_with (fun rc f => f rc) rects (node_map (layout_child layout block) kids))
  end.

(** The area of the first text leaf with the given content. *)
Definition area_of (content : string) (ls : list (leaf_kind * rect)) : option rect :=
  snd <$> list_find_first (fun p => match fst p with
                                    | KText _ s => String.eqb s content
                                    | _ => false
                                    end) ls.

(** The areas of the star symbols of a size. *)
Definition svg_areas (size : Z) (ls : list (leaf_kind * rect)) : list rect :=
  map snd (List.filter (fun p => match fst p with KSvg n => Z.eqb n size | _ => false end) ls).

(** ** Tactics *)

(** Lay a scene out on a screen of symbolic size: evaluate the layout,
    keeping rational arithmetic folded, then compute the closed
    comparisons of the weights and the inverses of their sums, so that
    [lra] reads what remains. *)
Ltac eval_layout_closed :=
  match goal with
  | |- context [Qle_bool ?a ?b] =>
      let v := eval vm_compute in (Qle_bool a b) in change (Qle_bool a b) with v
  | |- context [Qinv ?c] =>
      let v := eval vm_compute in (Qinv c) in change (Qinv c) with v
  end.

Ltac eval_layout_cbv f :=
  cbv -[Qplus Qmult Qminus Qopp Qinv Qle_bool Qeq Qle Qlt rect_eq inside scale_about translate_y f].

(** [eval_layout_with f] keeps [f] folded too: a scene's
    [getSpringValue], whose frame arithmetic would otherwise be unfolded
    into every moving box; [eval_layout] keeps the springs folded. *)
Ltac eval_layout_with f :=
  eval_layout_cbv f; repeat (eval_layout_closed; repeat eval_layout_closed; eval_layout_cbv f).

Ltac eval_layout := eval_layout_with spring.

(** Close [r ≡r s] between evaluated rectangles. *)
Ltac rect_lra := unfold rect_eq; cbn [rx ry rw rh]; repeat split; lra.

(** Bound an expression of the springs by their range. *)
Ltac spring_bounds :=
  repeat match goal with
         | |- context [spring ?a ?b] =>
             lazymatch goal with
             | _ : (0 <= spring a b <= 1)%Q |- _ => fail
             | _ => pose proof (spring_range a b)
             end
         end;
  lra.

(** An area moved by a spring: name the factor or the offset, bound it
    by the spring's range, and compare the boxes. *)
Ltac transformed_by_spring :=
  match goal with
  | |- exists k, _ /\ scale_about ?k' _ _ ≡r _ =>
      exists k'; split; [spring_bounds | apply scale_about_Proper; [reflexivity | rect_lra ..]]
  | |- exists d, _ /\ translate_y ?d' _ ≡r _ =>
      exists d'; split; [spring_bounds | apply translate_y_Proper; [reflexivity | rect_lra]]
  end.

(** An area moved exactly as a statement says: same transform, same box. *)
Ltac moved_as_stated :=
  first [ apply translate_y_Proper; [reflexivity | rect_lra]
        | apply scale_about_Proper; [reflexivity | rect_lra ..] ].

(** ** Lemmas *)

Lemma length_place start gap sizes : length (place start gap sizes) = length sizes.
Proof. revert start. induction sizes as [|s sizes IH]; intros start; simpl; auto. Qed.

Lemma length_cell_rects box d gap flexes : length (cell_rects box d gap flexes) = length flexes.
Proof.
  unfold cell_rects. destruct (mapM css_flex flexes) as [gs|] eqn:E; rewrite length_map; [|done].
  rewrite length_place. unfold distribute. destruct (Qle_bool _ _); rewrite length_map;
  symmetry; by eapply length_mapM.
Qed.

(** [layout] and [Remotion.collect] list the same leaves in the same
    order, whatever the boxes and the rendering context: the areas
    [layout] gives are the areas of the leaves [collect] paints. *)
Lemma layout_kinds (e : el) (box block : rect) (cx : ctx) :
  map fst (layout e box block) = map lf_kind (collect e cx).
Proof.
  revert box block cx.
  induction e as [from ks IH|cls ks IH|cls st ks IH|tag cls st s|size cls st|src|d r c kids IH]
    using el_ind'; intros box block cx; cbn [layout collect]; try rewrite list.Forall_forall in IH.
  - rewrite !map_concat, map_map. unfold mapi. rewrite map_mapi_from. f_equal.
    symmetry. apply mapi_from_const. intros j k Hk. symmetry. apply IH, Hk.
  - simpl. f_equal. rewrite !map_concat, map_map. unfold mapi. rewrite map_mapi_from. f_equal.
    symmetry. apply mapi_from_const. intros j k Hk. symmetry. apply IH, Hk.
  - destruct (div_box cls st box block) as [inner blk].
    rewrite map_map. cbn [transform_leaf fst]. rewrite !map_concat, map_map. unfold mapi. rewrite map_mapi_from. f_equal.
    symmetry. apply mapi_from_const. intros j k Hk. symmetry. apply IH, Hk.
  - done.
  - done.
  - done.
  - rewrite !node_map_toArray.
    rewrite (map_concat_zip_with _ _ _ (fun y => map lf_kind (render_child collect y root_ctx))).
    + rewrite (map_concat_zip_with _ _ _ (fun y => map lf_kind (render_child collect y root_ctx))).
      * done.
      * cbn [cells FlexContainer]. by rewrite length_mapi.
      * intros cl [s|x|e'] Hy; simpl; [done|done|]. pose proof (IH _ Hy) as He. simpl in He.
        by rewrite <- (He (screen 0 0) (screen 0 0) (cell_ctx cx cl)), <- (He (screen 0 0) (screen 0 0) root_ctx).
    + rewrite length_cell_rects, length_map. cbn [cells FlexContainer]. by rewrite length_mapi.
    + intros rc [s|x|e'] Hy; simpl; [done|done|]. apply (IH _ Hy).
Qed.

Lemma main_size_with_main d r off size : main_size d (with_main d r off size) = size.
Proof. unfold main_size, with_main. by case_decide. Qed.

Lemma map_snd_place start gap sizes : map snd (place start gap sizes) = sizes.
Proof. revert start. induction sizes as [|s sizes IH]; intros start; simpl; [done|]. by rewrite IH. Qed.

(** C7: each child of a [FlexContainer] occupies a share of the main
    axis proportional to its weight, after the gaps.  With one positive
    ratio per child summing to at least 1, the [i]-th cell of a container
    laid out in [box] gets [(M - gap * (n - 1)) * ratios[i] / sum] of the
    main size [M], where [gap] is the [gap-N] of the container's
    [className] (0 without one); the cells and the gaps between them fill
    the main axis. *)
Theorem FlexContainer_main_axis_shares {E} (p : FlexProps E) (qs : list Q) (box : rect) :
  ratios_prop p = Some (map Num qs) -> Forall (fun q => 0 < q) qs ->
  length (toArray (children p)) = length qs -> 1 <= sumQ qs ->
  let c := FlexContainer p in
  let d := default column (direction_prop p) in
  let gap := spacing "gap-" (container_className c) in
  let sizes := map (main_size d) (cell_rects box d gap (map cell_flex (cells c))) in
  sizes = map (fun q => (main_size d box - gap * inject_Z (Z.of_nat (length qs - 1))) * q / sumQ qs) qs /\
  sumQ sizes + gap * inject_Z (Z.of_nat (length qs - 1)) == main_size d box.
Proof.
  intros Hr Hpos Hlen Hsum c d gap sizes.
  assert (Hs : sizes = distribute (main_size d box - gap * inject_Z (Z.of_nat (length qs - 1))) qs).
  { subst sizes c. unfold cell_rects.
    rewrite (FlexContainer_flexes p qs), mapM_css_flex_pos, length_map by done.
    rewrite map_map. rewrite (map_ext _ snd) by (intros [o z]; apply main_size_with_main).
    apply map_snd_place. }
  split.
  - rewrite Hs. unfold distribute.
    by rewrite (proj2 (Qle_bool_iff 1 (sumQ qs)) Hsum).
  - rewrite Hs, distribute_fills by done. ring.
Qed.

Lemma FlexContainer_main_axis_shares_witness :
  let p := {| children := NArray [NElement "a"%string; NElement "b"%string; NElement "c"%string]; direction_prop := Some row;
              ratios_prop := Some (map Num [1; 1; 1]); className_prop := Some "gap-4"%string |} in
  let c := FlexContainer p in
  let d := default column (direction_prop p) in
  let gap := spacing "gap-" (container_className c) in
  let sizes := map (main_size d) (cell_rects (screen 300 100) d gap (map cell_flex (cells c))) in
  sizes = map (fun q => (main_size d (screen 300 100) - gap * inject_Z (Z.of_nat (length [1; 1; 1] - 1)))
                        * q / sumQ [1; 1; 1]) [1; 1; 1] /\
  sumQ sizes + gap * inject_Z (Z.of_nat (length [1; 1; 1] - 1)) == main_size d (screen 300 100).
Proof.
  apply FlexContainer_main_axis_shares; [reflexivity | repeat constructor; lra | reflexivity | simpl; lra].
Defined.

