(* ===== verification/ScaledPictureGraphs.v ===== *)
(** * The [ScaledPictureGraphs] scene

    Models [src/remotion/MyComp/ScaledPictureGraphs.tsx].  The component
    reads [frame] (absolute: [useCurrentFrame()] is called outside every
    [<Sequence>]) and [fps]; [timings] gives each stage's start frame
    (lines 60-68); [getSpringValue start delay] is the spring at
    [frame - start - delay] (lines 71-80); the returned tree (lines 82-242)
    nests each stage's [<Sequence>] inside its parent's with the offset
    [timings.child - timings.parent].  Everything lives in Module [SPG];
    each stage's subtree is a definition of its own ([title_cell],
    [more_than_one_stage], [scale_stage], [three_stars_stage],
    [equation_stage], [prompt_stage]), composed as the JSX nests them.

    Theorems: the stage starts are ordered; the nested offsets telescope,
    so each text appears exactly at its stage's timing; nothing that fades
    in is shown before its stage; and, at 30 fps over the 16-second
    composition, no star of the three-star stage is ever seen: its spring
    delays are [starIndex * 200] frames, and the only star whose delay
    ends inside the composition (frame 441) is already covered by the
    opaque participation prompt, mounted at frame 390; every text, on the
    other hand, is seen exactly in its window of seconds
    ([script_seconds]), at every frame rate.  On a screen of any size the
    "= 5 students" text is laid out over the whole stage-3 row, not in the
    right cell it is written in ([Layout.v]). *)

From Stdlib Require Import String ZArith QArith Lqa Lia.
From stdpp Require Import base list decidable sets.
From S2P Require Import Prelude Js ReactChildren FlexContainer Remotion Layout.

Local Open Scope string_scope.
Local Open Scope Z_scope.

Module SPG.

(** ** Data *)

(** [const timings = {...}] (lines 60-68). *)
Record Timings := {
  scaledPictureGraph : Z;
  moreThanOne : Z;
  scaleTellsYou : Z;
  eachStarEquals : Z;
  threeStarsMeans : Z;
  fifteenStudentsTotal : Z;
  fewerSymbols : Z
}.

Definition timings (fps : Z) : Timings :=
  {| scaledPictureGraph := 0;
     moreThanOne := 2 * fps;
     scaleTellsYou := 4 * fps;
     eachStarEquals := 6 * fps;
     threeStarsMeans := 8 * fps;
     fifteenStudentsTotal := 10 * fps;
     fewerSymbols := 13 * fps |}.

(** The storyboard of the lesson, in seconds: each text with the window
    [lo < t < hi] of seconds in which it is meant to be seen. *)
Definition script_seconds : list (string * Z * Z) :=
  [("Understanding Scaled Picture Graphs", 0, 16);
   ("Each symbol represents MORE than one item", 2, 13);
   ("= 5 students", 6, 8); ("3 × 5 = 15 students", 10, 13);
   ("Think About It!", 13, 16);
   ("How does the scale help us show<br />larger numbers with fewer symbols?", 13, 16)].

Section Scene.
Context `{SpringModel}.

(** [StarSymbol] (lines 18-39): size 60 and class [""] by default. *)
Definition StarSymbol (size : option Z) (className : option string) (st : style) : el :=
  Svg (default 60 size) ("text-yellow-400 " ++ default "" className) st.

Definition fade (q : Q) : style := {| opacity := Some q; transform_of := None |}.

Definition fade_scale (q : Q) : style := {| opacity := Some q; transform_of := Some (Scale q) |}.

(** The body of the component reads [fps] and [frame] once (lines 56-57);
    every stage below is a subtree of the returned JSX (lines 82-242). *)
Variables fps frame : Z.

Let t := timings fps.

(** [getSpringValue(startFrame, delay = 0)] (lines 71-80). *)
Definition getSpringValue (startFrame delay : Z) : Q :=
  spring fps (frame - startFrame - delay).

(** The title cell (lines 88-95). *)
Definition title_cell : el :=
  Div "flex items-center justify-center w-full h-full bg-blue-50" no_style [
    Text "h1" "text-4xl font-bold text-center text-blue-900"
      (fade (getSpringValue (scaledPictureGraph t) 0))
      "Understanding Scaled Picture Graphs"].

(** Stage 3, the scale demonstration (lines 116-145): the star in the left
    cell, the "= 5 students" [<Sequence>] as the right child. *)
Definition scale_stage : el :=
  Sequence (scaleTellsYou t - moreThanOne t) [
    Flex (Some row) (Some [Num 0.5; Num 0.5]) None (NArray [
      NElement (Div "flex items-center justify-center w-full h-full" no_style [
        Div "" (fade_scale (getSpringValue (scaleTellsYou t) 0)) [
          StarSymbol (Some 120) None no_style]]);
      NElement (Sequence (eachStarEquals t - scaleTellsYou t) [
        Div "flex items-center justify-center w-full h-full" no_style [
          Text "p" "text-2xl font-medium text-center text-gray-800"
            (fade (getSpringValue (eachStarEquals t) 0)) "= 5 students"]])])].

(** Stage 5, the equation (lines 172-191). *)
Definition equation_stage : el :=
  Sequence (fifteenStudentsTotal t - threeStarsMeans t) [
    Div "absolute bottom-16 left-0 right-0 flex items-center justify-center"
      {| opacity := Some (getSpringValue (fifteenStudentsTotal t) 0);
         transform_of := Some (TranslateY
           ((1 - getSpringValue (fifteenStudentsTotal t) 0%Z) * 50)%Q) |} [
      Div "bg-blue-100 px-8 py-4 rounded-lg border-2 border-blue-300" no_style [
        Text "p" "text-xl font-semibold text-center text-blue-900" no_style
          "3 × 5 = 15 students"]]].

(** Stage 4, the three stars (lines 148-193), each delayed by
    [starIndex * 200] frames (lines 155-162). *)
Definition three_stars_stage : el :=
  Sequence (threeStarsMeans t - moreThanOne t) [
    AbsoluteFill "bg-white" [
      Flex (Some row) (Some [Num 0.33; Num 0.33; Num 0.34]) None
        (NArray (map (fun starIndex =>
           NElement (Div "flex items-center justify-center w-full h-full" no_style [
             Div "" (fade_scale (getSpringValue (threeStarsMeans t) (starIndex * 200))) [
               StarSymbol (Some 80) None no_style]])) [1; 2; 3]));
      equation_stage]].

(** Stage 2 (lines 100-196): the explanation above, stages 3 to 5 below
    in a [relative] cell. *)
Definition more_than_one_stage : el :=
  Sequence (moreThanOne t - scaledPictureGraph t) [
    Flex None (Some [Num 0.4; Num 0.6]) None (NArray [
      NElement (Div "flex items-center justify-center w-full h-full bg-green-50" no_style [
        Text "h2" "text-2xl font-semibold text-center text-green-800"
          (fade (getSpringValue (moreThanOne t) 0))
          "Each symbol represents MORE than one item"]);
      NElement (Div "w-full h-full relative" no_style [scale_stage; three_stars_stage])])].

(** Stage 6, the participation prompt (lines 199-237). *)
Definition prompt_stage : el :=
  Sequence (fewerSymbols t - scaledPictureGraph t) [
    AbsoluteFill "bg-gradient-to-br from-purple-100 to-pink-100" [
      Div "flex items-center justify-center w-full h-full" no_style [
        Div "text-center p-8 bg-white rounded-xl shadow-lg border-4 border-purple-300"
          {| opacity := Some (getSpringValue (fewerSymbols t) 0);
             transform_of := Some (Scale (0.8 + 0.2 * getSpringValue (fewerSymbols t) 0%Z)%Q) |} ([
          Text "h2" "text-3xl font-bold text-purple-800 mb-4" no_style "Think About It!";
          Text "p" "text-xl text-purple-700" no_style
            "How does the scale help us show<br />larger numbers with fewer symbols?";
          Div "mt-6 flex justify-center space-x-4" no_style
            (map (fun i => StarSymbol (Some 40) (Some "animate-pulse") no_style) [1; 2; 3])])]]].

(** [ScaledPictureGraphs] (lines 55-243), at frame [frame]: the title and
    the content zone, which holds stage 2 and the prompt. *)
Definition ScaledPictureGraphs : el :=
  AbsoluteFill "bg-white" [
    Sequence (scaledPictureGraph t) [
      Flex None (Some [Num 0.15; Num 0.85]) None (NArray [
        NElement title_cell;
        NElement (Div "w-full h-full relative" no_style [more_than_one_stage; prompt_stage])])]].

End Scene.

(** ** Theorems *)

Section Proofs.
Context `{SpringModel}.

Definition mounts (fps frame : Z) : list (leaf_kind * Z) :=
  map (fun L => (lf_kind L, lf_mount L)) (frame_leaves (ScaledPictureGraphs fps) frame).

(** C4: the nested [<Sequence>] offsets [timings.child - timings.parent]
    telescope: for any non-negative frame rate each element of the scene
    is first rendered exactly at the start frame of its stage. *)
Theorem ScaledPictureGraphs_stage_mounts (fps frame : Z) :
  0 <= fps ->
  let t := timings fps in
  mounts fps frame =
    [(KFill true, 0);
     (KText "h1" "Understanding Scaled Picture Graphs", scaledPictureGraph t);
     (KText "h2" "Each symbol represents MORE than one item", moreThanOne t);
     (KSvg 120, scaleTellsYou t);
     (KText "p" "= 5 students", eachStarEquals t);
     (KFill true, threeStarsMeans t);
     (KSvg 80, threeStarsMeans t); (KSvg 80, threeStarsMeans t); (KSvg 80, threeStarsMeans t);
     (KText "p" "3 × 5 = 15 students", fifteenStudentsTotal t);
     (KFill true, fewerSymbols t);
     (KText "h2" "Think About It!", fewerSymbols t);
     (KText "p" "How does the scale help us show<br />larger numbers with fewer symbols?", fewerSymbols t);
     (KSvg 40, fewerSymbols t); (KSvg 40, fewerSymbols t); (KSvg 40, fewerSymbols t)].
Proof.
  intros Hfps t. unfold mounts, frame_leaves. cbn.
  repeat f_equal; lia.
Qed.

End Proofs.

Section Proofs2.
Local Open Scope remotion_scope.
Context `{SpringModel}.

(** C13: nothing pops in.  Every element of the scene other than the
    background fills is fully transparent until its stage's first frame
    has passed: its opacity is 0 at every frame up to its mount frame. *)
Theorem ScaledPictureGraphs_fades_in (fps frame : Z) :
  0 <= fps ->
  Forall (fun L => is_fill L \/ lf_mount L < frame \/ (lf_opacity L == 0)%Q)
         (frame_leaves (ScaledPictureGraphs fps) frame).
Proof.
  intros Hfps. unfold frame_leaves, is_fill. eval_leaves.
  repeat (apply List.Forall_cons; [
    first [ left; eexists; reflexivity
          | right; match goal with
            | |- (?m < ?f)%Z \/ _ =>
                destruct (Z.lt_ge_cases m f); [left; assumption | right; springs_at_rest]
            end ] | ]).
  apply List.Forall_nil.
Qed.

(** C3: the three stars of the "three stars means" stage are never seen in
    the 16-second composition at 30 fps.  Their springs are delayed by
    [starIndex * 200] frames (lines 155-162), so they start at frames 440,
    640 and 840; the composition ends at frame 479, and from frame 390 the
    participation prompt's opaque fill covers the whole content zone. *)
Theorem ScaledPictureGraphs_three_stars_unseen (frame : Z) :
  0 <= frame < 16 * 30 ->
  Forall (fun L => lf_kind L <> KSvg 80) (seen (ScaledPictureGraphs 30) frame).
Proof.
  intros Hf. unfold seen, frame_leaves. eval_leaves.
  destruct (Z.lt_ge_cases frame 390).
  - walk_visible ltac:(first [ left; simpl; congruence
                             | right; left; apply shown_opacity_zero; simpl; springs_at_rest ]).
  - walk_visible ltac:(first [ left; simpl; congruence | right; right; find_cover ]).
Qed.

(** C15: the "= 5 students" text escapes its flex cell.  Its
    [<Sequence>] is the right child of the stage-3 [FlexContainer], but a
    [<Sequence>] is absolutely positioned and the cells are not: on a
    screen of any size [width * height] the text is centred in the whole
    stage-3 row, [x] from [0] to [width], whose left half is the star's
    cell: the star is centred there, scaled about the cell's centre by
    its spring, a factor in [[0, 1]]. *)
Theorem five_students_escapes_its_cell (width height : Q) (fps frame : Z) :
  let ls := layout (ScaledPictureGraphs fps frame) (screen width height) (screen width height) in
  (exists r, area_of "= 5 students" ls = Some r /\
             r ≡r {| rx := 0; ry := 0.49 * height; rw := width; rh := 0.51 * height |})%Q /\
  Forall (fun r => exists k, 0 <= k <= 1 /\
            let cell := {| rx := 0; ry := 0.49 * height; rw := width * 0.5; rh := 0.51 * height |} in
            r ≡r scale_about k cell cell)%Q
         (svg_areas 120 ls).
Proof.
  eval_layout_with (@getSpringValue). unfold getSpringValue. split.
  - eexists. split; [reflexivity|]. rect_lra.
  - repeat constructor. transformed_by_spring.
Qed.

(** The windows of the storyboard, at any rate and frame. *)
Lemma spg_windows_seconds (fps f : Z) :
  1 <= fps -> 0 <= f < 16 * fps ->
  Forall (fun w => Exists (has_text w.1.1) (seen (ScaledPictureGraphs fps) f) <->
                   w.1.2 * fps < f < w.2 * fps)
    script_seconds.
Proof.
  intros Hfps Hf. unfold script_seconds, seen, frame_leaves. eval_leaves.
  assert (f = 0 \/ 0 < f <= 2 * fps \/ 2 * fps < f <= 6 * fps \/ 6 * fps < f < 8 * fps \/
          8 * fps <= f <= 10 * fps \/ 10 * fps < f < 13 * fps \/ f = 13 * fps \/ 13 * fps < f)
    as Hr by lia.
  windows_by_regions Hr.
Qed.

(** C24: the storyboard holds in seconds at every frame rate.  At any
    rate of at least 1 fps, over the first 16 seconds each text is seen
    exactly in its window of seconds: the title from the first frame on,
    the explanation from 2 s to 13 s, "= 5 students" from 6 s to 8 s,
    the equation from 10 s to 13 s, the prompt from 13 s on; the stage
    timings are whole multiples of [fps], so nothing is rounded. *)
Theorem ScaledPictureGraphs_seen_seconds (fps f : Z) :
  1 <= fps -> 0 <= f < 16 * fps ->
  Forall (fun w => Exists (has_text w.1.1) (seen (ScaledPictureGraphs fps) f) <->
                   w.1.2 * fps < f < w.2 * fps)
    [("Understanding Scaled Picture Graphs", 0, 16);
     ("Each symbol represents MORE than one item", 2, 13);
     ("= 5 students", 6, 8); ("3 × 5 = 15 students", 10, 13);
     ("Think About It!", 13, 16);
     ("How does the scale help us show<br />larger numbers with fewer symbols?", 13, 16)].
Proof. exact (spg_windows_seconds fps f). Qed.

(** C18: the participation prompt closes the lesson.  At 30 fps, from
    its first frame (390) to the end of the composition, every leaf a
    viewer sees is the page background, the title, or the prompt's fill,
    heading, question and stars: the prompt's opaque fill covers the
    whole content zone below the title. *)
Theorem prompt_hides_content (f : Z) :
  390 <= f < 16 * 30 ->
  Forall (fun L => In (lf_kind L)
            [KFill true; KText "h1" "Understanding Scaled Picture Graphs"; KText "h2" "Think About It!";
             KText "p" "How does the scale help us show<br />larger numbers with fewer symbols?"; KSvg 40])
         (seen (ScaledPictureGraphs 30) f).
Proof.
  intros Hf. unfold seen, frame_leaves. eval_leaves.
  walk_visible ltac:(first [ solve [left; cbn [lf_kind In]; repeat (first [left; reflexivity | right])]
                           | right; right; find_cover ]).
Qed.

End Proofs2.

(** ** Witnesses, with the spring model [linear_spring] *)

Lemma ScaledPictureGraphs_stage_mounts_witness :
  let t := timings 30 in
  @mounts linear_spring 30 450 =
    [(KFill true, 0);
     (KText "h1" "Understanding Scaled Picture Graphs", scaledPictureGraph t);
     (KText "h2" "Each symbol represents MORE than one item", moreThanOne t);
     (KSvg 120, scaleTellsYou t);
     (KText "p" "= 5 students", eachStarEquals t);
     (KFill true, threeStarsMeans t);
     (KSvg 80, threeStarsMeans t); (KSvg 80, threeStarsMeans t); (KSvg 80, threeStarsMeans t);
     (KText "p" "3 × 5 = 15 students", fifteenStudentsTotal t);
     (KFill true, fewerSymbols t);
     (KText "h2" "Think About It!", fewerSymbols t);
     (KText "p" "How does the scale help us show<br />larger numbers with fewer symbols?", fewerSymbols t);
     (KSvg 40, fewerSymbols t); (KSvg 40, fewerSymbols t); (KSvg 40, fewerSymbols t)].
Proof. apply (@ScaledPictureGraphs_stage_mounts linear_spring 30 450). lia. Defined.

Lemma ScaledPictureGraphs_fades_in_witness :
  Forall (fun L => is_fill L \/ lf_mount L < 200 \/ (lf_opacity L == 0)%Q)
         (frame_leaves (@ScaledPictureGraphs linear_spring 30) 200).
Proof. apply (@ScaledPictureGraphs_fades_in linear_spring 30 200). lia. Defined.

Lemma ScaledPictureGraphs_three_stars_unseen_witness :
  Forall (fun L => lf_kind L <> KSvg 80) (seen (@ScaledPictureGraphs linear_spring 30) 450).
Proof. apply (@ScaledPictureGraphs_three_stars_unseen linear_spring 450). lia. Defined.

(** The first star does start moving inside the composition, at frame
    441, under the prompt's fill. *)
Example first_star_moves_under_the_prompt :
  existsb (fun L => match lf_kind L with KSvg 80 => shown 450 L | _ => false end)
          (frame_leaves (@ScaledPictureGraphs linear_spring 30) 450) = true /\
  existsb (fun L => match lf_kind L with KSvg 80 => shown 440 L | _ => false end)
          (frame_leaves (@ScaledPictureGraphs linear_spring 30) 440) = false.
Proof. split; vm_compute; reflexivity. Qed.

Lemma ScaledPictureGraphs_seen_seconds_witness :
  Forall (fun w => Exists (has_text w.1.1) (seen (@ScaledPictureGraphs linear_spring 24) 170) <->
                   w.1.2 * 24 < 170 < w.2 * 24)
    [("Understanding Scaled Picture Graphs", 0, 16);
     ("Each symbol represents MORE than one item", 2, 13);
     ("= 5 students", 6, 8); ("3 × 5 = 15 students", 10, 13);
     ("Think About It!", 13, 16);
     ("How does the scale help us show<br />larger numbers with fewer symbols?", 13, 16)].
Proof. apply (@ScaledPictureGraphs_seen_seconds linear_spring 24 170); lia. Defined.

Lemma prompt_hides_content_witness :
  Forall (fun L => In (lf_kind L)
            [KFill true; KText "h1" "Understanding Scaled Picture Graphs"; KText "h2" "Think About It!";
             KText "p" "How does the scale help us show<br />larger numbers with fewer symbols?"; KSvg 40])
         (seen (@ScaledPictureGraphs linear_spring 30) 450).
Proof. apply (@prompt_hides_content linear_spring 450). lia. Defined.

End SPG.
