(* ===== verification/ChoosingTheRightScale.v ===== *)
(** * The [ChoosingTheRightScale] scene

    Models [src/remotion/MyComp/ChoosingTheRightScale.tsx].  As in the
    other scene, [frame] is absolute and each stage's [<Sequence>] is
    nested in its parent's with the offset [timings.child -
    timings.parent]; here the stage starts are voiceover timestamps in
    seconds converted with [Math.round(seconds * fps)] (lines 119-127).
    The three [ScaleGuideline] columns (lines 64-97) each show a
    [PictureGraphExample] (lines 38-61): one row per data item, with the
    value and [item.stars] star symbols from [Array.from({ length })].
    Everything lives in Module [CTRS]; each stage's subtree is a
    definition of its own ([title_cell], [guidelines_stage],
    [example_stage], [example_data], [prompt_stage], [solution_stage]).

    Theorems: the frames the timings give at 30 fps, their order for any
    frame rate of at least 1, and their stability under the rounding error
    of a double; the telescoping of the nested offsets; nothing fades in
    before its stage; the content of the guideline examples: each
    rendered row has [value / scale] stars; at 30 fps the exact
    windows of frames in which the column headings, the prompt and the
    solution are seen; and, geometrically, that the [p-6] padding of the
    columns' container has no effect. *)

From Stdlib Require Import String ZArith QArith Lqa Lia.
From stdpp Require Import base list decidable sets.
From S2P Require Import Prelude Js ReactChildren FlexContainer Remotion Layout.

Local Open Scope string_scope.
Local Open Scope Z_scope.

Module CTRS.

(** ** Data *)

(** [const timings = {...}] (lines 119-127): [Math.round(seconds * fps)]. *)
Record Timings := {
  pickScale : Z;
  smallNumbers : Z;
  mediumNumbers : Z;
  largeNumbers : Z;
  letsExample : Z;
  goodScale : Z;
  scaleOfFive : Z
}.

Definition at_fps (seconds : Q) (fps : Z) : Z := round_Q (seconds * inject_Z fps).

Definition timings (fps : Z) : Timings :=
  {| pickScale := at_fps 2.319 fps;
     smallNumbers := at_fps 7.139 fps;
     mediumNumbers := at_fps 13.42 fps;
     largeNumbers := at_fps 20.619 fps;
     letsExample := at_fps 28.019 fps;
     goodScale := at_fps 35.84 fps;
     scaleOfFive := at_fps 39.52 fps |}.

(** A data item [{ value, stars }] of a picture graph. *)
Record item := { value : Z; stars : Z }.

(** The props of a [ScaleGuideline] other than [opacity]. *)
Record guideline := {
  category : string;
  range : string;
  recommendation : string;
  bgColor : string;
  borderColor : string;
  textColor : string;
  examples : list item;
  scale : Z
}.

(** The three columns (lines 169-221). *)
Definition small_guideline : guideline :=
  {| category := "Small Numbers"; range := "Under 20"; recommendation := "Scale: 1 or 2";
     bgColor := "bg-white"; borderColor := "border-blue-300"; textColor := "text-blue-800";
     examples := [{| value := 6; stars := 3 |}; {| value := 10; stars := 5 |}; {| value := 8; stars := 4 |}];
     scale := 2 |}.

Definition medium_guideline : guideline :=
  {| category := "Medium Numbers"; range := "20 - 50"; recommendation := "Scale: 5 or 10";
     bgColor := "bg-white"; borderColor := "border-blue-300"; textColor := "text-blue-800";
     examples := [{| value := 20; stars := 4 |}; {| value := 25; stars := 5 |}; {| value := 10; stars := 2 |}];
     scale := 5 |}.

Definition large_guideline : guideline :=
  {| category := "Large Numbers"; range := "Over 50"; recommendation := "Scale: 10, 20, or more";
     bgColor := "bg-white"; borderColor := "border-orange-300"; textColor := "text-blue-800";
     examples := [{| value := 80; stars := 4 |}; {| value := 100; stars := 5 |}; {| value := 40; stars := 2 |}];
     scale := 20 |}.

(** The storyboard of the lesson at 30 fps: each heading with the window
    [lo < f < hi] of frames in which it is meant to be seen. *)
Definition script_30 : list (string * Z * Z) :=
  [("Small Numbers", 214, 841); ("Medium Numbers", 403, 841); ("Large Numbers", 619, 841);
   ("What would be a good scale?", 1075, 1186); ("Scale of 5 works perfectly!", 1186, 1394)].

Section Scene.
Context `{SpringModel}.

(** [StarSymbol] (lines 20-35): size 20 and class [""] by default. *)
Definition StarSymbol (size : option Z) (className : option string) : el :=
  Svg (default 20 size) ("text-yellow-400 " ++ default "" className) no_style.

(** [PictureGraphExample] (lines 38-61). *)
Definition PictureGraphExample (data : list item) (scale : Z) : el :=
  Div "bg-gray-50 p-3 rounded-lg mb-3" no_style
    (map (fun item =>
       Div "flex items-center justify-between mb-2 text-sm" no_style [
         Text "span" "font-medium w-6" no_style (string_of_Z (value item));
         Div "flex" no_style
           (map (fun _ => StarSymbol (Some 16) (Some "mr-1"))
                (array_from_length (Num (inject_Z (stars item)))))]) data
     ++ [Div "text-center mt-3 pt-2 border-t border-gray-300" no_style [
           Text "span" "text-xs font-medium text-blue-600" no_style
             ("Scale: ⭐ = " ++ string_of_Z scale ++ " items")]]).

(** [ScaleGuideline] (lines 64-97). *)
Definition ScaleGuideline (g : guideline) (opacity : Q) : el :=
  Div ("w-full h-full " ++ bgColor g ++ " " ++ borderColor g ++ " border-2 rounded-xl p-4 mx-2 flex flex-col")
    {| Remotion.opacity := Some opacity; transform_of := None |} [
    Div "text-center mb-4" no_style [
      Text "h3" ("text-xl font-bold " ++ textColor g ++ " mb-1") no_style (category g);
      Text "p" ("text-sm " ++ textColor g ++ " mb-2") no_style (range g);
      Text "p" ("text-base font-semibold " ++ textColor g) no_style (recommendation g)];
    Div "flex-1" no_style [PictureGraphExample (examples g) (scale g)]].

(** The style [{ opacity: q, transform: `scale(${0.8 + 0.2 * q})` }]
    (lines 234-237, 276-279). *)
Definition card (q : Q) : style :=
  {| Remotion.opacity := Some q; transform_of := Some (Scale (0.8 + 0.2 * q)%Q) |}.

(** A cell of the example data grid (lines 246-265). *)
Definition example_cell (n : string) : el :=
  Div "bg-purple-100 p-3 rounded-lg" no_style [Text "span" "text-lg font-semibold text-purple-900" no_style n].

(** A cell of the solution grid (lines 314-329). *)
Definition solution_cell (division result : string) : el :=
  Div "bg-green-100 p-4 rounded-lg" no_style [
    Text "div" "text-lg font-bold text-green-900" no_style division;
    Text "div" "text-2xl font-bold text-green-700" no_style result].

(** The body of the component reads [fps] and [frame] once (lines
    114-115); every stage below is a subtree of the returned JSX (lines
    141-343). *)
Variables fps frame : Z.

Let t := timings fps.

(** [getSpringValue(startFrame, delay = 0)] (lines 130-139). *)
Definition getSpringValue (startFrame delay : Z) : Q :=
  spring fps (frame - startFrame - delay).

(** [frame < t ? 0 : getSpringValue(t)] (lines 176, 195, 214). *)
Definition guarded_opacity (start : Z) : Q :=
  if frame <? start then 0%Q else getSpringValue start 0.

(** The title cell (lines 149-160). *)
Definition title_cell : el :=
  Div "flex items-center justify-center w-full h-full bg-indigo-50" no_style [
    Text "h1" "text-4xl font-bold text-center text-indigo-900"
      {| Remotion.opacity := Some (getSpringValue (pickScale t) 0);
         transform_of := Some (TranslateY ((1 - getSpringValue (pickScale t) 0%Z) * 30)%Q) |}
      "Choosing the Right Scale"].

(** The three guideline columns (lines 165-224), each faded in from its
    own timing. *)
Definition guidelines_stage : el :=
  Sequence (smallNumbers t - pickScale t) [
    Flex (Some row) (Some [Num 1; Num 1; Num 1]) (Some "gap-4") (NArray [
      NElement (Div "flex-1 flex" no_style [
        ScaleGuideline small_guideline (guarded_opacity (smallNumbers t))]);
      NElement (Div "flex-1 flex" no_style [
        ScaleGuideline medium_guideline (guarded_opacity (mediumNumbers t))]);
      NElement (Div "flex-1 flex" no_style [
        ScaleGuideline large_guideline (guarded_opacity (largeNumbers t))])])].

(** The example data card (lines 231-268). *)
Definition example_data : el :=
  Div "flex items-center justify-center w-full h-full bg-purple-50" no_style [
    Div "text-center p-6 bg-white rounded-xl shadow-lg border-2 border-purple-300"
      (card (getSpringValue (letsExample t) 0)) [
      Text "h2" "text-2xl font-bold text-purple-800 mb-4" no_style "Example Data";
      Div "grid grid-cols-2 gap-4" no_style [
        example_cell "25";
        example_cell "30";
        example_cell "15";
        example_cell "20"]]].

(** The participation prompt (lines 272-294). *)
Definition prompt_stage : el :=
  Sequence (goodScale t - letsExample t) [
    Div "flex items-center justify-center w-full h-full bg-gradient-to-br from-orange-100 to-yellow-100" no_style [
      Div "text-center p-8 bg-white rounded-xl shadow-lg border-4 border-orange-300"
        (card (getSpringValue (goodScale t) 0)) [
        Text "h2" "text-3xl font-bold text-orange-800 mb-4" no_style "What would be a good scale?";
        Div "flex justify-center items-center space-x-2 text-2xl" no_style [
          Text "span" "animate-pulse" no_style "🤔";
          Text "span" "animate-pulse" no_style "💭";
          Text "span" "animate-pulse" no_style "❓"]]]].

(** The solution (lines 297-334), over the prompt in the same [relative]
    cell. *)
Definition solution_stage : el :=
  Sequence (scaleOfFive t - letsExample t) [
    AbsoluteFill "bg-gradient-to-br from-green-100 to-emerald-100" [
      Div "flex items-center justify-center w-full h-full" no_style [
        Div "text-center p-8 bg-white rounded-xl shadow-lg border-4 border-green-400"
          {| Remotion.opacity := Some (getSpringValue (scaleOfFive t) 0);
             transform_of := Some (TranslateY ((1 - getSpringValue (scaleOfFive t) 0%Z) * 50)%Q) |} [
          Text "h2" "text-2xl font-bold text-green-800 mb-6" no_style "Scale of 5 works perfectly!";
          Div "grid grid-cols-2 gap-4" no_style [
            solution_cell "25 ÷ 5 = " "5 symbols";
            solution_cell "30 ÷ 5 = " "6 symbols";
            solution_cell "15 ÷ 5 = " "3 symbols";
            solution_cell "20 ÷ 5 = " "4 symbols"]]]]].

(** Stage 5, the example section (lines 227-338), over the guidelines. *)
Definition example_stage : el :=
  Sequence (letsExample t - pickScale t) [
    AbsoluteFill "bg-white" [
      Flex None (Some [Num 0.4; Num 0.6]) None (NArray [
        NElement example_data;
        NElement (Div "w-full h-full relative" no_style [prompt_stage; solution_stage])])]].

(** [ChoosingTheRightScale] (lines 113-344), at frame [frame]. *)
Definition ChoosingTheRightScale : el :=
  AbsoluteFill "bg-white" [
    Audio "voiceover.mp3";
    Sequence (pickScale t) [
      Flex None (Some [Num 0.15; Num 0.85]) None (NArray [
        NElement title_cell;
        NElement (Div "w-full h-full relative bg-blue-50 p-6" no_style [
          guidelines_stage; example_stage])])]].

End Scene.

(** ** Timings *)

Definition stage_seconds : list Q := [2.319; 7.139; 13.42; 20.619; 28.019; 35.84; 39.52]%Q.

Definition timings_list (t : Timings) : list Z :=
  [pickScale t; smallNumbers t; mediumNumbers t; largeNumbers t; letsExample t; goodScale t;
   scaleOfFive t].

Lemma timings_list_at_fps (fps : Z) :
  timings_list (timings fps) = map (fun s => at_fps s fps) stage_seconds.
Proof. reflexivity. Qed.

(** C11: at 30 fps the stages start at frames 70, 214, 403, 619, 841,
    1075 and 1186, and they still do when each product [seconds * 30]
    carries an error below 0.07, far above the error of a double: every
    exact product lies at least 0.07 from a rounding boundary. *)
Theorem ChoosingTheRightScale_frames_30 (ds : list Q) :
  length ds = 7%nat -> Forall (fun d => - (7 # 100) < d /\ d < 7 # 100)%Q ds ->
  zip_with (fun s d => round_Q (s * inject_Z 30 + d)) stage_seconds ds = timings_list (timings 30) /\
  timings_list (timings 30) = [70; 214; 403; 619; 841; 1075; 1186].
Proof.
  intros Hlen Hds. split; [|reflexivity].
  do 7 (destruct ds as [|? ds]; [discriminate Hlen|]). destruct ds; [|discriminate Hlen].
  repeat match goal with H : Forall _ (_ :: _) |- _ => inversion H; subst; clear H end.
  change (timings_list (timings 30)) with [70; 214; 403; 619; 841; 1075; 1186].
  cbn [zip_with stage_seconds].
  repeat f_equal; apply round_Q_spec; unfold inject_Z; lra.
Qed.

(** Stages further apart than one frame start at different frames. *)
Lemma at_fps_lt (s1 s2 : Q) (fps : Z) :
  (1 <= (s2 - s1) * inject_Z fps)%Q -> at_fps s1 fps < at_fps s2 fps.
Proof. intros H. apply round_Q_lt_gap. unfold at_fps. lra. Qed.

Lemma at_fps_le (s1 s2 : Q) (fps : Z) :
  (s1 <= s2)%Q -> 0 <= fps -> at_fps s1 fps <= at_fps s2 fps.
Proof.
  intros H Hf. apply round_Q_mono. apply Qmult_le_compat_r; [done|].
  change 0%Q with (inject_Z 0). qify. done.
Qed.

(** C12: at any frame rate of at least 1, the seven stages start at
    strictly increasing frames, so the nested offsets
    [timings.child - timings.parent] are all positive. *)
Theorem ChoosingTheRightScale_timings_increasing (fps : Z) :
  1 <= fps ->
  let t := timings fps in
  pickScale t < smallNumbers t /\ smallNumbers t < mediumNumbers t /\
  mediumNumbers t < largeNumbers t /\ largeNumbers t < letsExample t /\
  letsExample t < goodScale t /\ goodScale t < scaleOfFive t.
Proof.
  intros Hf t. assert (Hq : (1 <= inject_Z fps)%Q) by (change 1%Q with (inject_Z 1); qify; lia).
  repeat split; apply at_fps_lt; nra.
Qed.

(** Every stage starts no later than the last one. *)
Lemma timings_le_last (fps : Z) :
  0 <= fps -> Forall (fun s => s <= scaleOfFive (timings fps)) (timings_list (timings fps)).
Proof.
  intros Hf. rewrite timings_list_at_fps.
  repeat constructor; apply at_fps_le; try done; unfold Qle; simpl; lia.
Qed.

(** A stage starts later at a higher frame rate. *)
Lemma at_fps_mono_fps (s : Q) (f1 f2 : Z) :
  (0 <= s)%Q -> f1 <= f2 -> at_fps s f1 <= at_fps s f2.
Proof.
  intros Hs Hf. apply round_Q_mono.
  assert (inject_Z f1 <= inject_Z f2)%Q by (qify; done). nra.
Qed.

(** ** The opacity guards *)

Section Guards.
Context `{SpringModel}.

End Guards.

(** ** The picture graph examples *)

Section Examples.
Context `{SpringModel}.

Definition row_kinds (it : item) : list leaf_kind :=
  KText "span" (string_of_Z (value it)) :: replicate (Z.to_nat (stars it)) (KSvg 16).

Definition footer_kind (scale : Z) : leaf_kind :=
  KText "span" ("Scale: ⭐ = " ++ string_of_Z scale ++ " items").

(** A [PictureGraphExample] renders, for each data item in order, its
    value followed by [item.stars] star symbols, then the scale line. *)
Lemma PictureGraphExample_kinds (data : list item) (scale : Z) (cx : ctx) :
  Forall (fun it => stars it <= 2 ^ 53 - 1) data ->
  map lf_kind (collect (PictureGraphExample data scale) cx) =
  (List.concat (map row_kinds data) ++ [footer_kind scale])%list.
Proof.
  intros Hs. unfold PictureGraphExample. cbn [collect]. unfold mapi.
  rewrite mapi_from_app, List.concat_app, map_app, mapi_from_map.
  apply (f_equal2 (@app _)); [|reflexivity].
  generalize 0%nat. induction data as [|it data IH]; intros i; [reflexivity|].
  apply Forall_cons_iff in Hs as [Hit Hs].
  cbn [mapi_from List.concat]. rewrite map_app, IH by done. f_equal.
  cbn [collect mapi mapi_from List.concat]. rewrite app_nil_r, map_app.
  unfold row_kinds. cbn [map app]. f_equal.
  unfold mapi. rewrite mapi_from_map.
  rewrite (map_concat_mapi_from_single lf_kind _ (KSvg 16)) by reflexivity.
  by rewrite length_array_from_length, to_length_Z_nat.
Qed.

Definition guidelines : list guideline := [small_guideline; medium_guideline; large_guideline].

(** C10: each guideline's picture graph is drawn to its scale: every row
    shows its value followed by exactly [value / scale] star symbols, and
    the value is a whole number of symbols. *)
Theorem guideline_rows_to_scale (g : guideline) (cx : ctx) :
  In g guidelines ->
  Forall (fun it => value it = stars it * scale g) (examples g) /\
  map lf_kind (collect (PictureGraphExample (examples g) (scale g)) cx) =
    (List.concat (map (fun it => KText "span" (string_of_Z (value it)) ::
                                 replicate (Z.to_nat (value it / scale g)) (KSvg 16)) (examples g))
     ++ [footer_kind (scale g)])%list.
Proof.
  intros Hg. destruct Hg as [<-|[<-|[<-|[]]]];
    (rewrite PictureGraphExample_kinds by (repeat constructor; simpl; lia));
    split; try (repeat constructor); reflexivity.
Qed.

End Examples.

(** ** Stage starts *)

Section Stages.
Local Open Scope remotion_scope.
Context `{SpringModel}.

Lemma timings_monotone (fps : Z) :
  0 <= fps ->
  let t := timings fps in
  0 <= pickScale t /\ pickScale t <= smallNumbers t /\ smallNumbers t <= mediumNumbers t /\
  mediumNumbers t <= largeNumbers t /\ pickScale t <= letsExample t /\
  letsExample t <= goodScale t /\ letsExample t <= scaleOfFive t.
Proof.
  intros Hf t. assert (H0 : at_fps 0 fps = 0) by (unfold at_fps; apply round_Q_spec; unfold inject_Z; lra).
  repeat split; [rewrite <- H0|..]; apply at_fps_le; try done; unfold Qle; simpl; lia.
Qed.

(** C8: the nested offsets of this scene telescope too: for any
    non-negative frame rate the title, the guideline columns, the example
    data, the participation prompt and the solution are first rendered at
    the frames [pickScale], [smallNumbers], [letsExample], [goodScale] and
    [scaleOfFive] of [timings].  (The medium and large columns are mounted
    with the small one; their guarded opacities hold them back.) *)
Theorem ChoosingTheRightScale_stage_mounts (fps frame : Z) :
  0 <= fps ->
  let t := timings fps in
  let ls := frame_leaves (ChoosingTheRightScale fps) frame in
  mount_of "Choosing the Right Scale" ls = Some (pickScale t) /\
  mount_of "Small Numbers" ls = Some (smallNumbers t) /\
  mount_of "Medium Numbers" ls = Some (smallNumbers t) /\
  mount_of "Large Numbers" ls = Some (smallNumbers t) /\
  mount_of "Example Data" ls = Some (letsExample t) /\
  mount_of "What would be a good scale?" ls = Some (goodScale t) /\
  mount_of "Scale of 5 works perfectly!" ls = Some (scaleOfFive t).
Proof.
  intros Hf t ls. pose proof (timings_monotone fps Hf) as Hm. subst t ls.
  unfold mount_of, frame_leaves.
  cbv -[visible Qmult Qeq spring Z.max Z.add Z.sub Z.mul Z.lt Z.le Z.leb at_fps] in *.
  repeat split; f_equal; lia.
Qed.

(** C14: nothing pops in.  Every element of the scene other than the
    background fills and the audio track is fully transparent until its
    stage's first frame has passed; in particular the medium and large
    columns, mounted with the small one, stay transparent at least until
    then, through their guarded springs. *)
Theorem ChoosingTheRightScale_fades_in (fps frame : Z) :
  0 <= fps ->
  Forall (fun L => is_fill L \/ lf_kind L = KAudio "voiceover.mp3" \/
                   lf_mount L < frame \/ (lf_opacity L == 0)%Q)
         (frame_leaves (ChoosingTheRightScale fps) frame).
Proof.
  intros Hf. pose proof (timings_monotone fps Hf) as Hm.
  unfold frame_leaves, is_fill.
  cbv -[visible Qmult Qeq spring Z.max Z.add Z.sub Z.mul Z.lt Z.le Z.leb Z.ltb at_fps] in *.
  repeat (apply List.Forall_cons; [
    first [ left; eexists; reflexivity
          | right; left; reflexivity
          | right; right; match goal with
            | |- (?m < ?f)%Z \/ _ =>
                destruct (Z.lt_ge_cases m f); [left; assumption | right; springs_at_rest]
            end ] | ]).
  apply List.Forall_nil.
Qed.

(** C16: the [p-6] padding of the guidelines' container (line 163) has
    no effect: its children are [<Sequence>]s, absolutely positioned in
    its padding box.  On a screen of any size, the three columns share
    the whole width less the two [gap-4] gaps, so the first starts at the
    left edge and the last ends at the right edge; each card's text lies
    in its column less the card's own [p-4]. *)
Theorem guidelines_ignore_padding (width height : Q) (fps frame : Z) :
  let ls := layout (ChoosingTheRightScale fps frame) (screen width height) (screen width height) in
  let col := ((width - 32) / 3)%Q in
  (exists r, area_of "Small Numbers" ls = Some r /\
     r ≡r inset 16 {| rx := 0; ry := 0.15 * height; rw := col; rh := 0.85 * height |})%Q /\
  (exists r, area_of "Large Numbers" ls = Some r /\
     r ≡r inset 16 {| rx := width - col; ry := 0.15 * height; rw := col; rh := 0.85 * height |})%Q.
Proof. eval_layout_with (@getSpringValue). split; eexists; (split; [reflexivity | rect_lra]). Qed.

(** Evaluate a frame at 30 fps: the stage frames and the lengths of the
    star rows are closed, and computed; the springs stay folded. *)
Ltac eval_at_30 :=
  cbv -[visible Qmult Qeq spring Z.max Z.add Z.sub Z.mul Z.lt Z.le Z.leb Z.ltb at_fps array_from_length];
  repeat match goal with
         | |- context [at_fps ?s ?r] =>
             let v := eval vm_compute in (at_fps s r) in change (at_fps s r) with v
         | |- context [array_from_length ?n] =>
             let v := eval vm_compute in (array_from_length n) in change (array_from_length n) with v
         end;
  cbv -[visible Qmult Qeq spring Z.max Z.add Z.sub Z.mul Z.lt Z.le Z.leb Z.ltb].

(** The windows of the storyboard, frame by frame. *)
Lemma ctrs_windows_30 (f : Z) :
  0 <= f < 1394 ->
  Forall (fun w => Exists (has_text w.1.1) (seen (ChoosingTheRightScale 30) f) <-> w.1.2 < f < w.2)
    script_30.
Proof.
  intros Hf. unfold script_30, seen, frame_leaves. eval_at_30.
  assert (f <= 214 \/ 214 < f <= 403 \/ 403 < f <= 619 \/ 619 < f < 841 \/ 841 <= f <= 1075 \/
          1075 < f < 1186 \/ f = 1186 \/ 1186 < f) as Hr by lia.
  windows_by_regions Hr.
Qed.

(** C17: at 30 fps the guideline columns appear in order and leave
    together, and the solution replaces the prompt.  Over the
    1394 frames of the composition each heading below is seen exactly in
    its window: a column from the frame after its own stage starts until
    the example section's opaque fill covers the columns (frame 841); the
    prompt from frame 1076 until the solution's fill covers it (frame
    1186); the solution from frame 1187 to the end. *)
Theorem ChoosingTheRightScale_seen_windows (f : Z) :
  0 <= f < 1394 ->
  Forall (fun w => Exists (has_text w.1.1) (seen (ChoosingTheRightScale 30) f) <-> w.1.2 < f < w.2)
    [("Small Numbers", 214, 841); ("Medium Numbers", 403, 841); ("Large Numbers", 619, 841);
     ("What would be a good scale?", 1075, 1186); ("Scale of 5 works perfectly!", 1186, 1394)].
Proof. exact (ctrs_windows_30 f). Qed.

End Stages.

(** ** Witnesses, with the spring model [linear_spring] *)

Lemma ChoosingTheRightScale_frames_30_witness :
  zip_with (fun s d => round_Q (s * inject_Z 30 + d)) stage_seconds
           [0.01; -0.01; 0; 0.05; -0.05; 0.06; -0.06]%Q = timings_list (timings 30) /\
  timings_list (timings 30) = [70; 214; 403; 619; 841; 1075; 1186].
Proof.
  apply ChoosingTheRightScale_frames_30; [reflexivity|].
  repeat constructor; unfold Qlt; simpl; lia.
Defined.

Lemma ChoosingTheRightScale_timings_increasing_witness :
  let t := timings 30 in
  pickScale t < smallNumbers t /\ smallNumbers t < mediumNumbers t /\
  mediumNumbers t < largeNumbers t /\ largeNumbers t < letsExample t /\
  letsExample t < goodScale t /\ goodScale t < scaleOfFive t.
Proof. apply ChoosingTheRightScale_timings_increasing. lia. Defined.

Lemma guideline_rows_to_scale_witness :
  Forall (fun it => value it = stars it * scale medium_guideline) (examples medium_guideline) /\
  map lf_kind (collect (PictureGraphExample (examples medium_guideline)
                                           (scale medium_guideline)) root_ctx) =
    (List.concat (map (fun it => KText "span" (string_of_Z (value it)) ::
                                 replicate (Z.to_nat (value it / scale medium_guideline)) (KSvg 16))
                      (examples medium_guideline))
     ++ [footer_kind (scale medium_guideline)])%list.
Proof. apply guideline_rows_to_scale. right; left; reflexivity. Defined.

Lemma ChoosingTheRightScale_stage_mounts_witness :
  let t := timings 30 in
  let ls := frame_leaves (@ChoosingTheRightScale linear_spring 30) 900 in
  mount_of "Choosing the Right Scale" ls = Some (pickScale t) /\
  mount_of "Small Numbers" ls = Some (smallNumbers t) /\
  mount_of "Medium Numbers" ls = Some (smallNumbers t) /\
  mount_of "Large Numbers" ls = Some (smallNumbers t) /\
  mount_of "Example Data" ls = Some (letsExample t) /\
  mount_of "What would be a good scale?" ls = Some (goodScale t) /\
  mount_of "Scale of 5 works perfectly!" ls = Some (scaleOfFive t).
Proof. apply (@ChoosingTheRightScale_stage_mounts linear_spring 30 900). lia. Defined.

Lemma ChoosingTheRightScale_fades_in_witness :
  Forall (fun L => is_fill L \/ lf_kind L = KAudio "voiceover.mp3" \/
                   lf_mount L < 500 \/ (lf_opacity L == 0)%Q)
         (frame_leaves (@ChoosingTheRightScale linear_spring 30) 500).
Proof. apply (@ChoosingTheRightScale_fades_in linear_spring 30 500). lia. Defined.

Lemma ChoosingTheRightScale_seen_windows_witness :
  Forall (fun w => Exists (has_text w.1.1) (seen (@ChoosingTheRightScale linear_spring 30) 700) <->
                   w.1.2 < 700 < w.2)
    [("Small Numbers", 214, 841); ("Medium Numbers", 403, 841); ("Large Numbers", 619, 841);
     ("What would be a good scale?", 1075, 1186); ("Scale of 5 works perfectly!", 1186, 1394)].
Proof. apply (@ChoosingTheRightScale_seen_windows linear_spring 700). lia. Defined.

End CTRS.
