(* ===== verification/Root.v ===== *)
(** * The composition registry

    Models [src/remotion/Root.tsx] (lines 15-56): [RemotionRoot] registers
    four compositions, each with an id, a component, a duration in frames,
    a frame rate and a size.  [Main] and [NextLogo] are not in the
    repository's sources; the constants [COMP_NAME], [DURATION_IN_FRAMES],
    [VIDEO_FPS], [VIDEO_WIDTH] and [VIDEO_HEIGHT] come from
    [types/constants], which is not either, so they are a parameter
    ([Constants]).

    The two scenes read [fps] from [useVideoConfig()], that is the
    composition's [VIDEO_FPS], but their durations are written for 30 fps
    ([16 * 30], [Math.round(46.479 * 30)]).  One theorem of this file
    says for which frame rates every stage of each scene still starts
    before its composition ends.

    A composition's [component] is a scene of this development, as a
    function of the frame rate and the frame, or a component outside the
    repository ([component_ref]); [render_frame] is Remotion rendering
    frame [f] of it, which exists for [0 <= f < durationInFrames].

    Mounting a [<Composition>] registers it with Remotion, which checks
    its props and throws on a bad one: [validate] (the id's characters:
    ASCII letters, digits, [-] and the CJK letters U+4E00 to U+9FFF,
    read as the UTF-8 bytes of the string,
    positive size, duration and frame rate) and [register] (the id not
    yet registered); [register_all] mounts the root's compositions in
    tree order and stops at the first error.  [RemotionRoot_registers]
    says exactly which constants let the root mount. *)

From Stdlib Require Import String Ascii ZArith QArith Lqa Lia.
From stdpp Require Import base list decidable.
From S2P Require Import Prelude Js Remotion.
From S2P Require Import ScaledPictureGraphs ChoosingTheRightScale.

Local Open Scope string_scope.
Local Open Scope Z_scope.

(** The constants of [types/constants]. *)
Record Constants := {
  COMP_NAME : string;
  DURATION_IN_FRAMES : Z;
  VIDEO_FPS : Z;
  VIDEO_WIDTH : Z;
  VIDEO_HEIGHT : Z
}.

(** The [component] of a composition: a scene of this development, as a
    function of the frame rate [useVideoConfig()] gives and of the frame
    [useCurrentFrame()] gives, or a component whose source is not in the
    repository. *)
Inductive component_ref :=
| Scene (render : Z -> Z -> el)
| External (name : string).

(** [<Composition id component durationInFrames fps width height />]. *)
Record Composition := {
  id : string;
  component : component_ref;
  durationInFrames : Z;
  fps : Z;
  width : Z;
  height : Z
}.

Section Registry.
Context `{SpringModel}.

(** [RemotionRoot] (lines 15-56). *)
Definition RemotionRoot (c : Constants) : list Composition :=
  [ {| id := COMP_NAME c; component := External "Main"; durationInFrames := DURATION_IN_FRAMES c;
       fps := VIDEO_FPS c; width := VIDEO_WIDTH c; height := VIDEO_HEIGHT c |};
    {| id := "NextLogo"; component := External "NextLogo"; durationInFrames := 300;
       fps := 30; width := 140; height := 140 |};
    {| id := "ScaledPictureGraphs"; component := Scene SPG.ScaledPictureGraphs;
       durationInFrames := 16 * 30;
       fps := VIDEO_FPS c; width := VIDEO_WIDTH c; height := VIDEO_HEIGHT c |};
    {| id := "ChoosingTheRightScale"; component := Scene CTRS.ChoosingTheRightScale;
       durationInFrames := round_Q (46.479 * 30);
       fps := VIDEO_FPS c; width := VIDEO_WIDTH c; height := VIDEO_HEIGHT c |} ].

(** Frame [f] of a composition, as Remotion renders it: the component gets
    the composition's [fps]; only the frames [0 .. durationInFrames - 1]
    exist; a component outside the repository is not modelled. *)
Definition render_frame (k : Composition) (f : Z) : option (list leaf) :=
  if (0 <=? f) && (f <? durationInFrames k) then
    match component k with
    | Scene s => Some (frame_leaves (s (fps k)) f)
    | External _ => None
    end
  else None.

Definition find_composition (name : string) (cs : list Composition) : option Composition :=
  list_find_first (fun k => String.eqb (id k) name) cs.

(** The stage starts of [ScaledPictureGraphs] at a frame rate. *)
Definition spg_stages (fps : Z) : list Z :=
  let t := SPG.timings fps in
  [SPG.scaledPictureGraph t; SPG.moreThanOne t;
   SPG.scaleTellsYou t; SPG.eachStarEquals t;
   SPG.threeStarsMeans t; SPG.fifteenStudentsTotal t;
   SPG.fewerSymbols t].

(** Every stage of a scene starts before its composition's last frame. *)
Definition stages_fit (stages : list Z) (comp : option Composition) : Prop :=
  match comp with
  | Some k => Forall (fun s => s < durationInFrames k) stages
  | None => False
  end.

(** ** Registration

    Mounting a [<Composition>] validates its props and registers it;
    Remotion throws on the first invalid one, in tree order: an id that
    does not match [/^([a-zA-Z0-9-\u4E00-\u9FFF])+$/] (ASCII letters,
    digits, [-] and the CJK ideographs U+4E00 to U+9FFF), a non-positive
    duration, frame rate, width or height, or an id already registered.
    Strings are the UTF-8 bytes of the text: an ideograph of the range is
    the three bytes [E4..E9], [80..BF], [80..BF] of a code point from
    [0x4E00] to [0x9FFF]. *)

Inductive reg_error :=
| InvalidId (id : string)
| InvalidDimension (id : string)
| InvalidDuration (id : string)
| InvalidFps (id : string)
| DuplicateId (id : string).

Definition id_char (c : ascii) : bool :=
  let n := nat_of_ascii c in
  ((48 <=? n) && (n <=? 57))%nat || ((65 <=? n) && (n <=? 90))%nat ||
  ((97 <=? n) && (n <=? 122))%nat || (n =? 45)%nat.

(** The three UTF-8 bytes of a character from U+4E00 to U+9FFF. *)
Definition cjk_char (a b c : ascii) : bool :=
  let a := N_of_ascii a in
  let b := N_of_ascii b in
  let c := N_of_ascii c in
  ((224 <=? a) && (a <=? 239) && (128 <=? b) && (b <=? 191) && (128 <=? c) && (c <=? 191))%N &&
  (let cp := ((a - 224) * 4096 + (b - 128) * 64 + (c - 128))%N in
   (19968 <=? cp) && (cp <=? 40959))%N.

(** Every character of the id matches the character class of the
    regular expression. *)
Fixpoint id_chars (l : list ascii) : bool :=
  match l with
  | [] => true
  | a :: rest =>
      if id_char a then id_chars rest
      else match rest with
           | b :: c :: rest' => cjk_char a b c && id_chars rest'
           | _ => false
           end
  end.

Definition valid_id (s : string) : bool :=
  negb (String.eqb s "") && id_chars (list_ascii_of_string s).

Definition validate (k : Composition) : option reg_error :=
  if negb (valid_id (id k)) then Some (InvalidId (id k))
  else if (width k <=? 0) || (height k <=? 0) then Some (InvalidDimension (id k))
  else if durationInFrames k <=? 0 then Some (InvalidDuration (id k))
  else if fps k <=? 0 then Some (InvalidFps (id k))
  else None.

(** Register one composition in a registry, or fail. *)
Definition register (reg : list Composition) (k : Composition) : reg_error + list Composition :=
  match validate k with
  | Some e => inl e
  | None =>
      if List.existsb (fun k' => String.eqb (id k') (id k)) reg then inl (DuplicateId (id k))
      else inr (reg ++ [k])%list
  end.

(** Mount the compositions in order, stopping at the first error. *)
Fixpoint register_all (reg : list Composition) (ks : list Composition) : reg_error + list Composition :=
  match ks with
  | [] => inr reg
  | k :: ks' =>
      match register reg k with
      | inl e => inl e
      | inr reg' => register_all reg' ks'
      end
  end.

(** ** Theorems *)

Lemma find_composition_skip (name : string) (k : Composition) (cs : list Composition) :
  id k <> name -> find_composition name (k :: cs) = find_composition name cs.
Proof.
  intros Hne. unfold find_composition. simpl.
  destruct (String.eqb_spec (id k) name); [contradiction|done].
Qed.

(** The composition a scene is registered as, when the ids are distinct. *)
Lemma find_scene (c : Constants) (name : string) :
  NoDup (map id (RemotionRoot c)) ->
  name = "ScaledPictureGraphs" \/ name = "ChoosingTheRightScale" ->
  find_composition name (RemotionRoot c) = find_composition name (tl (RemotionRoot c)).
Proof.
  intros Hnd Hn. apply find_composition_skip. simpl in Hnd.
  inversion Hnd as [|? ? Hnin]; subst. intros Heq. apply Hnin. simpl in Heq |- *. rewrite Heq.
  apply list_elem_of_In. destruct Hn as [->| ->]; simpl; auto.
Qed.

(** [validate] accepts exactly the compositions with a valid id and
    positive size, duration and frame rate. *)
Lemma validate_none (k : Composition) :
  validate k = None <->
  valid_id (id k) = true /\ 0 < width k /\ 0 < height k /\ 0 < durationInFrames k /\ 0 < fps k.
Proof.
  unfold validate. destruct (valid_id (id k)); simpl; [|split; [discriminate|intros (?&_); discriminate]].
  destruct (Z.leb_spec (width k) 0), (Z.leb_spec (height k) 0), (Z.leb_spec (durationInFrames k) 0),
    (Z.leb_spec (fps k) 0); simpl; split; intros; try discriminate; try done; lia.
Qed.

(** The duplicate check of [register] is membership among the ids. *)
Lemma existsb_id (reg : list Composition) (s : string) :
  List.existsb (fun k' => String.eqb (id k') s) reg = true <-> s ∈ map id reg.
Proof.
  rewrite List.existsb_exists, list_elem_of_In, List.in_map_iff. split.
  - intros (k' & Hin & Heq). apply String.eqb_eq in Heq. eauto.
  - intros (k' & Heq & Hin). exists k'. split; [done|]. by apply String.eqb_eq.
Qed.

(** Registering succeeds, keeping the order, exactly when every
    composition is valid and no two share an id. *)
Lemma register_all_ok (reg ks : list Composition) :
  NoDup (map id reg) ->
  register_all reg ks = inr (reg ++ ks)%list <->
  Forall (fun k => validate k = None) ks /\ NoDup (map id (reg ++ ks)%list).
Proof.
  revert reg. induction ks as [|k ks IH]; intros reg Hreg; simpl.
  - rewrite app_nil_r. split; [intros _; split; [constructor | done] | done].
  - unfold register. destruct (validate k) as [e|] eqn:Hv.
    + split; [discriminate | intros [Hall _]; apply Forall_cons_iff in Hall as [Hk _]; congruence].
    + destruct (List.existsb _ reg) eqn:He.
      * split; [discriminate|]. intros [_ Hnd]. apply existsb_id in He.
        rewrite map_app in Hnd. simpl in Hnd. apply list.NoDup_app in Hnd as (_ & Hdis & _).
        exfalso. apply (Hdis (id k) He). constructor.
      * assert (Hnd' : NoDup (map id (reg ++ [k])%list)).
        { rewrite map_app. apply list.NoDup_app. split; [done|]. split; [|apply list.NoDup_singleton].
          intros x Hx Hx'. apply list_elem_of_singleton in Hx' as ->.
          apply (proj2 (existsb_id reg (id k))) in Hx. congruence. }
        replace (reg ++ k :: ks)%list with ((reg ++ [k]) ++ ks)%list by (by rewrite <- app_assoc).
        rewrite (IH _ Hnd'), Forall_cons_iff. split; [intros [? ?]; repeat split; auto | intros [[_ ?] ?]; auto].
Qed.

(** C9: the scenes take their frame rate from the composition
    ([VIDEO_FPS]) but their durations are written for 30 fps.  Every stage
    of [ScaledPictureGraphs] starts before its composition ends exactly
    when [VIDEO_FPS <= 36], and every stage of [ChoosingTheRightScale]
    exactly when [VIDEO_FPS <= 35]; at a higher rate the last stages are
    cut off. *)
Theorem scenes_fit_compositions (c : Constants) :
  NoDup (map id (RemotionRoot c)) -> 0 <= VIDEO_FPS c ->
  (stages_fit (spg_stages (VIDEO_FPS c)) (find_composition "ScaledPictureGraphs" (RemotionRoot c))
     <-> VIDEO_FPS c <= 36) /\
  (stages_fit (CTRS.timings_list (CTRS.timings (VIDEO_FPS c)))
              (find_composition "ChoosingTheRightScale" (RemotionRoot c))
     <-> VIDEO_FPS c <= 35).
Proof.
  intros Hnd Hf. rewrite !find_scene by auto. cbn -[round_Q].
  change (round_Q (46.479 * 30)) with 1394. split.
  - unfold spg_stages. cbn. rewrite !Forall_cons_iff, Forall_nil_iff. lia.
  - pose proof (CTRS.timings_le_last (VIDEO_FPS c) Hf) as Hle.
    rewrite Forall_forall in Hle |- *. split.
    + intros Hfit. specialize (Hfit _ ltac:(right; do 5 right; left; reflexivity)).
      destruct (Z.le_gt_cases (VIDEO_FPS c) 35) as [|Hgt]; [done|].
      pose proof (CTRS.at_fps_mono_fps 39.52 36 (VIDEO_FPS c)) as Hm.
      change (CTRS.at_fps 39.52 36) with 1423 in Hm.
      cbn [CTRS.timings CTRS.scaleOfFive] in Hfit. assert (1423 <= CTRS.at_fps 39.52 (VIDEO_FPS c))
        by (apply Hm; [unfold Qle; simpl; lia | lia]). lia.
    + intros H35 s Hs. specialize (Hle s Hs).
      pose proof (CTRS.at_fps_mono_fps 39.52 (VIDEO_FPS c) 35) as Hm.
      change (CTRS.at_fps 39.52 35) with 1383 in Hm.
      cbn [CTRS.timings CTRS.scaleOfFive] in Hle. assert (CTRS.at_fps 39.52 (VIDEO_FPS c) <= 1383)
        by (apply Hm; [unfold Qle; simpl; lia | lia]). lia.
Qed.

(** C19: mounting [RemotionRoot] registers its four compositions, in
    order and without error, exactly when the constants are valid: the
    main composition's id [COMP_NAME] is a valid id distinct from the
    three other ids, and its duration, frame rate and size are positive.
    Otherwise Remotion throws (an [inl] error) at the first bad
    composition. *)
Theorem RemotionRoot_registers (c : Constants) :
  register_all [] (RemotionRoot c) = inr (RemotionRoot c) <->
  valid_id (COMP_NAME c) = true /\
  COMP_NAME c <> "NextLogo" /\ COMP_NAME c <> "ScaledPictureGraphs" /\
  COMP_NAME c <> "ChoosingTheRightScale" /\
  0 < DURATION_IN_FRAMES c /\ 0 < VIDEO_FPS c /\ 0 < VIDEO_WIDTH c /\ 0 < VIDEO_HEIGHT c.
Proof.
  rewrite <- (app_nil_l (RemotionRoot c)) at 2.
  rewrite register_all_ok by constructor. unfold RemotionRoot. cbn [app map id].
  rewrite !Forall_cons_iff, !validate_none. simpl.
  rewrite !list.NoDup_cons, !elem_of_cons, !elem_of_nil.
  change (round_Q (46.479 * 30)) with 1394. split.
  - intros ((Hk & _) & Hn & _). destruct Hk as (Hv & Hw & Hh & Hd & Hf).
    repeat split; auto; intros Hc; apply Hn; tauto.
  - intros (Hv & H1 & H2 & H3 & Hd & Hf & Hw & Hh).
    repeat split; try done; try lia; try (constructor || intuition discriminate || tauto).
Qed.

End Registry.

(** ** Witness: the constants of the Remotion Next.js template *)

Definition template_constants : Constants :=
  {| COMP_NAME := "MyComp"; DURATION_IN_FRAMES := 200; VIDEO_FPS := 30;
     VIDEO_WIDTH := 1280; VIDEO_HEIGHT := 720 |}.

Lemma scenes_fit_compositions_witness :
  (stages_fit (spg_stages 30) (find_composition "ScaledPictureGraphs" (@RemotionRoot linear_spring template_constants))
     <-> 30 <= 36) /\
  (stages_fit (CTRS.timings_list (CTRS.timings 30))
              (find_composition "ChoosingTheRightScale" (@RemotionRoot linear_spring template_constants))
     <-> 30 <= 35).
Proof.
  apply (@scenes_fit_compositions linear_spring template_constants); [|simpl; lia].
  cbn. repeat (constructor; [rewrite list_elem_of_In; simpl; intuition discriminate|]). constructor.
Defined.

(** A [COMP_NAME] equal to a scene's id makes the root throw on the
    scene's [<Composition>]. *)
Example duplicate_scene_id_rejected :
  register_all []
    (@RemotionRoot linear_spring {| COMP_NAME := "ScaledPictureGraphs"; DURATION_IN_FRAMES := 200;
                                    VIDEO_FPS := 30; VIDEO_WIDTH := 1280; VIDEO_HEIGHT := 720 |})
  = inl (DuplicateId "ScaledPictureGraphs").
Proof. vm_compute. reflexivity. Qed.

(** Ids with ideographs register; other non-ASCII letters do not: "图表"
    (U+56FE U+8868) is valid, "é" (U+00E9) is not. *)
Example cjk_ids :
  valid_id (String (ascii_of_nat 229) (String (ascii_of_nat 155) (String (ascii_of_nat 190)
           (String (ascii_of_nat 232) (String (ascii_of_nat 161) (String (ascii_of_nat 168) EmptyString)))))) = true /\
  valid_id (String (ascii_of_nat 195) (String (ascii_of_nat 169) EmptyString)) = false.
Proof. split; reflexivity. Qed.
