(* ===== verification/Render.v ===== *)
(** * Rendering a composition, frame after frame

    Remotion renders a registered composition by rendering its component
    at the frames [0], [1], ..., [durationInFrames - 1], in order
    ([Root.render_frame] is one frame).  [render_from k f], defined with
    Equations by well-founded recursion on [durationInFrames - f], renders
    the frames from [f] on, and fails on a component it cannot render
    (one whose source is not in the repository); [render_video k] starts
    at frame 0.  This loop is Remotion's, not the repository's: it is
    here so that [Storyboard.v] can speak of the video of a composition,
    and [render_from_scene] says what it computes for a scene. *)

From Stdlib Require Import String ZArith QArith Lia.
From stdpp Require Import base list.
From Equations Require Import Equations.
From S2P Require Import Prelude Js Remotion Root.

Local Open Scope Z_scope.

(** The frames from [f] on, or [None] on a frame that cannot be rendered. *)
Equations? render_from (k : Composition) (f : Z) : option (list (list leaf))
  by wf (Z.to_nat (durationInFrames k - f)) lt :=
render_from k f with Z_lt_dec f (durationInFrames k) := {
  | left Hlt =>
      match render_frame k f with
      | Some ls => cons ls <$> render_from k (f + 1)
      | None => None
      end
  | right _ => Some [] }.
Proof. lia. Qed.

Definition render_video (k : Composition) : option (list (list leaf)) := render_from k 0.

(** ** Lemmas *)

Lemma render_frame_scene k sc f :
  component k = Scene sc -> 0 <= f < durationInFrames k ->
  render_frame k f = Some (frame_leaves (sc (fps k)) f).
Proof.
  intros Hc Hf. unfold render_frame. rewrite Hc.
  rewrite (proj2 (Z.leb_le 0 f)), (proj2 (Z.ltb_lt f _)) by lia. done.
Qed.

Lemma render_from_scene k sc f :
  component k = Scene sc -> 0 <= f ->
  render_from k f =
    Some (map (fun i => frame_leaves (sc (fps k)) (f + Z.of_nat i))
              (seq 0 (Z.to_nat (durationInFrames k - f)))).
Proof.
  intros Hc. funelim (render_from k f); intros Hf.
  - rewrite (render_frame_scene k sc f Hc) by lia. rewrite (H [] sc Hc) by lia.
    replace (Z.to_nat (durationInFrames k - f)) with (S (Z.to_nat (durationInFrames k - (f + 1)))) by lia.
    simpl. rewrite Z.add_0_r. f_equal. f_equal. rewrite <- seq_shift, map_map.
    apply map_ext. intros i. f_equal. lia.
  - replace (Z.to_nat (durationInFrames k - f)) with 0%nat by lia. done.
Qed.
