(* ===== verification/Motion.v ===== *)
(** * Boxes that move with the springs

    The scenes animate some boxes with a CSS [transform] driven by a
    spring: a heading or a card slides up into place
    ([translateY((1 - spring) * d px)]) or grows into place
    ([scale(0.8 + 0.2 * spring)], [scale(spring)]).  [Layout.layout]
    paints every area inside a transformed box through its transform
    ([Layout.apply_transform]); here, on a screen of any size, at any
    frame rate and any frame, the area of each moving text is its resting
    area moved by exactly the offset or scaled by exactly the factor its
    spring gives, about the right box. *)

From Stdlib Require Import String ZArith QArith Lqa Lia.
From stdpp Require Import base list.
From S2P Require Import Prelude Js Remotion Layout ScaledPictureGraphs ChoosingTheRightScale.

Local Open Scope Q_scope.
Local Open Scope remotion_scope.

(** The title zone of both scenes: the top 15% of the screen. *)
Definition title_zone (width height : Q) : rect :=
  {| rx := 0; ry := 0; rw := width; rh := 0.15 * height |}.

(** The content zone below it. *)
Definition content_zone (width height : Q) : rect :=
  {| rx := 0; ry := 0.15 * height; rw := width; rh := 0.85 * height |}.

(** The lower 60% of the content zone: the stage-3 row of
    [ScaledPictureGraphs], the example section of
    [ChoosingTheRightScale]. *)
Definition lower_zone (width height : Q) : rect :=
  {| rx := 0; ry := 0.49 * height; rw := width; rh := 0.51 * height |}.

Section Motion.
Context `{SpringModel}.

(** C20: in [ChoosingTheRightScale], on a screen of any size and at any
    frame, the title is its resting area in the title zone moved down by
    [(1 - s) * 30] px, [s] its fade-in spring; the prompt is the example
    section scaled about its centre by [0.8 + 0.2 * s] for the prompt's
    spring; the solution heading is its resting area moved down by
    [(1 - s) * 50] px for the solution's spring.  Each box starts below
    (or smaller than) its resting area and reaches it as its spring
    reaches 1. *)
Theorem ChoosingTheRightScale_motion (width height : Q) (fps frame : Z) :
  let ls := layout (CTRS.ChoosingTheRightScale fps frame) (screen width height) (screen width height) in
  let t := CTRS.timings fps in
  let s start := CTRS.getSpringValue fps frame start 0 in
  (exists r, area_of "Choosing the Right Scale" ls = Some r /\
     r ≡r translate_y ((1 - s (CTRS.pickScale t)) * 30) (title_zone width height)) /\
  (exists r, area_of "What would be a good scale?" ls = Some r /\
     r ≡r scale_about (0.8 + 0.2 * s (CTRS.goodScale t)) (lower_zone width height) (lower_zone width height)) /\
  (exists r, area_of "Scale of 5 works perfectly!" ls = Some r /\
     r ≡r translate_y ((1 - s (CTRS.scaleOfFive t)) * 50) (lower_zone width height)).
Proof.
  eval_layout_with (@CTRS.getSpringValue).
  split; [|split]; eexists; (split; [reflexivity | moved_as_stated]).
Qed.

(** C21: in [ScaledPictureGraphs], on a screen of any size and at any
    frame, the equation is its resting area moved down by [(1 - s) * 50]
    px for the equation's spring, and the prompt's heading is the content
    zone scaled about its centre by [0.8 + 0.2 * s] for the prompt's
    spring. *)
Theorem ScaledPictureGraphs_motion (width height : Q) (fps frame : Z) :
  let ls := layout (SPG.ScaledPictureGraphs fps frame) (screen width height) (screen width height) in
  let t := SPG.timings fps in
  let s start := SPG.getSpringValue fps frame start 0 in
  (exists r, area_of "3 × 5 = 15 students" ls = Some r /\
     r ≡r translate_y ((1 - s (SPG.fifteenStudentsTotal t)) * 50) (lower_zone width height)) /\
  (exists r, area_of "Think About It!" ls = Some r /\
     r ≡r scale_about (0.8 + 0.2 * s (SPG.fewerSymbols t)) (content_zone width height) (content_zone width height)).
Proof.
  eval_layout_with (@SPG.getSpringValue).
  split; eexists; (split; [reflexivity | moved_as_stated]).
Qed.

End Motion.
