(* ===== verification/Storyboard.v ===== *)
(** * The lessons' storyboards, and the videos Remotion renders

    An abstract specification of what a viewer sees: a [storyboard] is
    the length of a lesson in frames and, for each of its texts, the
    window of frames [lo < f < hi] in which it is on screen
    ([SPG.script_seconds] at 30 fps, [CTRS.script_30], at the 30 fps the lessons'
    timings are written for).  [follows sb frames]: the video has the
    storyboard's length, and in each frame exactly the texts whose
    window holds the frame are seen (rendered, not transparent, not
    covered by a later opaque fill).

    The refinement theorem puts the components together: the registry
    of [Root.v], the frame loop of [Render.v] and the scenes.  When the
    root registers without error and [VIDEO_FPS] is 30, the video of each
    registered composition that has a storyboard follows it. *)

From Stdlib Require Import String ZArith QArith Lia.
From stdpp Require Import base list.
From S2P Require Import Prelude Js Remotion ScaledPictureGraphs ChoosingTheRightScale Root Render.

Local Open Scope Z_scope.

Record storyboard := {
  sb_length : Z;
  sb_cues : list (string * Z * Z)
}.

(** The storyboard of a composition, by id. *)
Definition storyboard_of (name : string) : option storyboard :=
  if String.eqb name "ScaledPictureGraphs" then
    Some {| sb_length := 480; sb_cues := map (fun w => (w.1.1, w.1.2 * 30, w.2 * 30)) SPG.script_seconds |}
  else if String.eqb name "ChoosingTheRightScale" then
    Some {| sb_length := 1394; sb_cues := CTRS.script_30 |}
  else None.

(** A video follows a storyboard: same length, and frame by frame the
    texts seen are those of the cues whose window holds the frame. *)
Definition follows (sb : storyboard) (frames : list (list leaf)) : Prop :=
  length frames = Z.to_nat (sb_length sb) /\
  forall i ls, frames !! i = Some ls ->
    Forall (fun w => Exists (has_text w.1.1) (visible (Z.of_nat i) ls) <-> w.1.2 < Z.of_nat i < w.2)
           (sb_cues sb).

Section Storyboard.
Context `{SpringModel}.

(** The video of a scene follows a storyboard whose windows hold at
    every frame of the composition. *)
Lemma scene_follows (sc : Z -> Z -> el) (fps : Z) (sb : storyboard) :
  0 <= sb_length sb ->
  (forall f, 0 <= f < sb_length sb ->
     Forall (fun w => Exists (has_text w.1.1) (seen (sc fps) f) <-> w.1.2 < f < w.2) (sb_cues sb)) ->
  follows sb (map (fun i => frame_leaves (sc fps) (0 + Z.of_nat i)) (seq 0 (Z.to_nat (sb_length sb - 0)))).
Proof.
  intros Hl Hw. split.
  - rewrite length_map, length_seq. f_equal. lia.
  - intros i ls Hi. apply list_lookup_fmap_Some in Hi as (j & -> & Hj).
    apply lookup_seq in Hj as [-> Hj]. apply (Hw (Z.of_nat i)). lia.
Qed.

(** Registration without error makes the ids distinct. *)
Lemma registered_ids c :
  register_all [] (RemotionRoot c) = inr (RemotionRoot c) -> NoDup (map id (RemotionRoot c)).
Proof.
  intros Hr. rewrite <- (app_nil_l (RemotionRoot c)) in Hr at 2.
  apply register_all_ok in Hr as [_ Hnd]; [done | constructor].
Qed.

(** C23: the videos follow the storyboards.  When the root registers
    its compositions without error and the video frame rate is 30, the
    video Remotion renders of every registered composition with a
    storyboard has the storyboard's length, and in each of its frames
    exactly the texts whose window holds the frame are seen. *)
Theorem RemotionRoot_follows_storyboards (c : Constants) (k : Composition) (sb : storyboard) :
  register_all [] (RemotionRoot c) = inr (RemotionRoot c) -> VIDEO_FPS c = 30 ->
  k ∈ RemotionRoot c -> storyboard_of (id k) = Some sb ->
  exists frames, render_video k = Some frames /\ follows sb frames.
Proof.
  intros Hr Hfps Hk Hsb. apply registered_ids in Hr.
  unfold RemotionRoot in Hk, Hr. rewrite !elem_of_cons, elem_of_nil in Hk.
  destruct Hk as [->|[->|[->|[->|[]]]]]; cbn [id] in Hsb.
  - exfalso. unfold storyboard_of in Hsb. cbn [map] in Hr.
    apply list.NoDup_cons in Hr as [Hn _]. apply Hn. cbn [id]. rewrite !elem_of_cons.
    destruct (String.eqb_spec (COMP_NAME c) "ScaledPictureGraphs") as [E|_]; [tauto|].
    destruct (String.eqb_spec (COMP_NAME c) "ChoosingTheRightScale") as [E|_]; [tauto | discriminate].
  - discriminate.
  - injection Hsb as <-. eexists. split.
    + unfold render_video. apply (render_from_scene _ SPG.ScaledPictureGraphs 0); [done | lia].
    + cbn [durationInFrames fps]. rewrite Hfps.
      change (16 * 30) with (sb_length {| sb_length := 480;
        sb_cues := map (fun w => (w.1.1, w.1.2 * 30, w.2 * 30)) SPG.script_seconds |}).
      apply scene_follows; [simpl; lia|]. intros f Hf. cbn [sb_cues sb_length] in Hf |- *.
      rewrite List.Forall_map. exact (SPG.spg_windows_seconds 30 f ltac:(lia) Hf).
  - injection Hsb as <-. eexists. split.
    + unfold render_video. apply (render_from_scene _ CTRS.ChoosingTheRightScale 0); [done | lia].
    + cbn [durationInFrames fps]. rewrite Hfps.
      change (round_Q (46.479 * 30)) with (sb_length {| sb_length := 1394; sb_cues := CTRS.script_30 |}).
      apply scene_follows; [simpl; lia|]. intros f Hf. exact (CTRS.ctrs_windows_30 f Hf).
Qed.

End Storyboard.

(** ** Witness: the template's root, whose [VIDEO_FPS] is 30 *)

(** The [ScaledPictureGraphs] composition of the template's root. *)
Definition spg_composition : Composition :=
  List.nth 2 (@RemotionRoot linear_spring template_constants)
    {| id := ""; component := External ""; durationInFrames := 0; fps := 0; width := 0; height := 0 |}.

Lemma RemotionRoot_follows_storyboards_witness :
  exists frames, render_video spg_composition = Some frames /\
                 follows {| sb_length := 480;
                   sb_cues := map (fun w => (w.1.1, w.1.2 * 30, w.2 * 30)) SPG.script_seconds |} frames.
Proof.
  apply (@RemotionRoot_follows_storyboards linear_spring template_constants spg_composition).
  - reflexivity.
  - reflexivity.
  - apply list_elem_of_In. simpl. auto.
  - reflexivity.
Defined.
